(** * react-native-passkey: the iOS and Android adapters

    A shallow embedding of [PasskeyiOS] and [PasskeyAndroid]: the two
    base64 re-encodings, the request preparation, the reshaping of the
    native results and the [try]/[catch] around the one native call. *)

From Stdlib Require Import String Ascii Arith Lia List.
From stdpp Require Import gmap strings list fin_maps pretty.
From Equations Require Import Equations.
From Equations.Prop Require Import Logic.

Local Open Scope string_scope.

(** ** JavaScript string primitives used by the adapters

    A string is a sequence of code units; the adapters compare code units
    with [-], [_], [+], [/] and [=] only, and read [length]. *)
Module JsString.

(** [s.replace(/c/g, d)] for a one-character pattern [c] and a
    one-character replacement [d] without [$]: every occurrence. *)
Fixpoint replace_global (c d : ascii) (s : string) : string :=
  match s with
  | EmptyString => EmptyString
  | String a s' => String (if Ascii.eqb a c then d else a) (replace_global c d s')
  end.

(** Is [s] made of [=] only? *)
Fixpoint only_equals (s : string) : bool :=
  match s with
  | EmptyString => true
  | String a s' => Ascii.eqb a "=" && only_equals s'
  end.

(** Does [/\=+$/] match at the first position of [s]?  The greedy run of
    [=] has to be non-empty and has to reach the end of the input, since
    [$] (no [m] flag) holds there only and a shorter run is followed by
    another [=]. *)
Definition equals_run_to_end (s : string) : bool :=
  match s with
  | EmptyString => false
  | String a s' => Ascii.eqb a "=" && only_equals s'
  end.

(** [s.replace(/\=+$/, '')]: no [g] flag, so the leftmost match is
    replaced by the empty string; positions are tried left to right. *)
Fixpoint replace_equals_at_end (s : string) : string :=
  if equals_run_to_end s then EmptyString
  else match s with
       | EmptyString => EmptyString
       | String a s' => String a (replace_equals_at_end s')
       end.

(** [n] copies of [=]. *)
Fixpoint equals (n : nat) : string :=
  match n with
  | O => EmptyString
  | S n' => String "=" (equals n')
  end.

End JsString.

(** ** JavaScript values, exceptions and the native bridge *)
Module Js.

(** The values that cross the bridge: JSON data, and [undefined] for the
    read of a property an object does not have.  A number is carried as
    the text [String(n)] gives for it; the adapters never compute with
    numbers.  An object is a finite map from property names to values. *)
#[warnings="-register-all"]
Inductive jsval : Type :=
| JUndefined
| JNull
| JBool (b : bool)
| JNum (text : string)
| JStr (s : string)
| JArr (elements : list jsval)
| JObj (properties : gmap string jsval).

(** [o.k] on a plain object [o], for a name [k] that [Object.prototype]
    does not define. *)
Definition prop_read (o : gmap string jsval) (k : string) : jsval :=
  default JUndefined (o !! k).

(** Modelled from the spec: the error kinds of [./PasskeyError], which is
    not among the sources; section 7 of the specification gives this closed
    enumeration. *)
Inductive ErrorKind : Type :=
| UserCancelled
| NotSupported
| RequestInvalid
| NativeFailure
| UnknownKind.

(** Modelled from the spec: the declaration of [PasskeyError] in
    [./PasskeyError] is not among the sources; section 7 has a classified
    error carry one of the kinds plus an underlying message. *)
Record PasskeyError : Type := { kind : ErrorKind; message : string }.

(** What a [throw] (or a rejected promise) can carry in the adapters:
    the raw value the native bridge rejected with, a [TypeError] or a
    [SyntaxError] of the runtime, or a classified [PasskeyError]. *)
Inductive thrown : Type :=
| NativeRejection (raw : jsval)
| TypeError
| SyntaxError
| Classified (error : PasskeyError).

(** How the promise of a native call settles. *)
Inductive settled (R : Type) : Type :=
| Resolved (r : R)
| Rejected (raw : jsval).
Arguments Resolved {R} r.
Arguments Rejected {R} raw.

End Js.

(** ** The records of [PasskeyiOS] *)

(** Declared at the end of the iOS source file. *)
Module PasskeyiOSRegistrationData.
Record t : Type :=
  { rpId : string; challenge : string; name : string; userID : string }.
End PasskeyiOSRegistrationData.

Module PasskeyiOSRegistrationResult.
Record response_t : Type :=
  { rawAttestationObject : string; rawClientDataJSON : string }.
Record t : Type := { credentialID : string; response : response_t }.
End PasskeyiOSRegistrationResult.

Module PasskeyiOSAuthenticationResult.
Record response_t : Type :=
  { rawAuthenticatorData : string; rawClientDataJSON : string; signature : string }.
Record t : Type :=
  { credentialID : string; userID : string; response : response_t }.
End PasskeyiOSAuthenticationResult.

(** ** The requests

    The request types are declared in [./Passkey], which is not among the
    sources; the iOS adapter reads [rp.id], [challenge],
    [user.displayName] and [user.id] of a registration request and [rpId]
    and [challenge] of an authentication request. *)
Module PasskeyRegistrationRequest.

(** Modelled from the spec: the relying party of a registration request
    ([./Passkey] is missing), with the id and the name of section 3. *)
Record rp_t : Type := { rp_id : string; rp_name : string }.

(** Modelled from the spec: the user of a registration request
    ([./Passkey] is missing), with the id, the name and the display name
    of section 3. *)
Record user_t : Type :=
  { user_id : string; user_name : string; user_displayName : string }.

(** Modelled from the spec: the registration request ([./Passkey] is
    missing): challenge, relying party, user, and the algorithm and
    attestation preferences of section 3, kept as [others]. *)
Record t : Type :=
  { challenge : string; rp : rp_t; user : user_t; others : gmap string Js.jsval }.

End PasskeyRegistrationRequest.

Module PasskeyAuthenticationRequest.

(** Modelled from the spec: the authentication request ([./Passkey] is
    missing): relying-party id, challenge, and the allowed credential ids
    of section 3, kept in [others]. *)
Record t : Type :=
  { rpId : string; challenge : string; others : gmap string Js.jsval }.

End PasskeyAuthenticationRequest.

(** ** The results, as the object literals of the iOS adapter build them *)
Module PasskeyRegistrationResult.
Record response_t : Type :=
  { clientDataJSON : string; attestationObject : string }.
Record t : Type :=
  { id : string; rawId : string; type : string; response : response_t }.
End PasskeyRegistrationResult.

Module PasskeyAuthenticationResult.
Record response_t : Type :=
  { clientDataJSON : string; authenticatorData : string;
    signature : string; userHandle : string }.
Record t : Type :=
  { id : string; rawId : string; type : string; response : response_t }.
End PasskeyAuthenticationResult.

(** ** [NativePasskey] and the programs that call it *)
Module Native.
Import Js.

(** One invocation of the native capability, with its arguments.  The
    iOS module takes discrete arguments, the Android one a JSON text. *)
Inductive NativeCall : Type :=
| IOSRegister (rpId challenge name userID : string) (withSecurityKey : bool)
| IOSAuthenticate (rpId challenge : string) (withSecurityKey : bool)
| AndroidRegister (requestJSON : string)
| AndroidAuthenticate (requestJSON : string).

(** What the promise of each invocation resolves to. *)
Definition response_of (c : NativeCall) : Type :=
  match c with
  | IOSRegister _ _ _ _ _ => PasskeyiOSRegistrationResult.t
  | IOSAuthenticate _ _ _ => PasskeyiOSAuthenticationResult.t
  | AndroidRegister _ => string
  | AndroidAuthenticate _ => string
  end.

(** An [async] body: it returns, throws, or awaits a native call and goes
    on with the way the promise settled. *)
Inductive Prog (A : Type) : Type :=
| Ret (a : A)
| Throw (e : thrown)
| Call (c : NativeCall) (k : settled (response_of c) -> Prog A).
Arguments Ret {A} a.
Arguments Throw {A} e.
Arguments Call {A} c k.

Fixpoint bind {A B : Type} (p : Prog A) (f : A -> Prog B) : Prog B :=
  match p with
  | Ret a => f a
  | Throw e => Throw e
  | Call c k => Call c (fun s => bind (k s) f)
  end.

#[export] Instance prog_ret : MRet Prog := fun _ a => Ret a.
#[export] Instance prog_bind : MBind Prog := fun _ _ f p => bind p f.

(** [await NativePasskey.f(...)]: a rejection is thrown at the [await]. *)
Definition await (c : NativeCall) : Prog (response_of c) :=
  Call c (fun s => match s with
                   | Resolved r => Ret r
                   | Rejected raw => Throw (NativeRejection raw)
                   end).

(** [try { p } catch (error) { h error }]. *)
Fixpoint try_catch {A : Type} (p : Prog A) (h : thrown -> Prog A) : Prog A :=
  match p with
  | Ret a => Ret a
  | Throw e => h e
  | Call c k => Call c (fun s => try_catch (k s) h)
  end.

(** A synchronous step that returns or throws. *)
Definition of_sum {A : Type} (r : thrown + A) : Prog A :=
  match r with
  | inl e => Throw e
  | inr a => Ret a
  end.

(** The native layer, as a test double would provide it: each invocation
    settles and may change the state [W] of the double. *)
Definition handler (W : Type) : Type :=
  forall c : NativeCall, W -> settled (response_of c) * W.

(** How the promise returned by an adapter settles for the caller. *)
Inductive outcome (A : Type) : Type :=
| Fulfilled (a : A)
| RejectedWith (e : thrown).
Arguments Fulfilled {A} a.
Arguments RejectedWith {A} e.

(** Running a program against a native layer: the outcome, the final
    state of the layer and the invocations made, in order. *)
Fixpoint run {A W : Type} (p : Prog A) (h : handler W) (w : W)
  : outcome A * W * list NativeCall :=
  match p with
  | Ret a => (Fulfilled a, w, [])
  | Throw e => (RejectedWith e, w, [])
  | Call c k =>
      let '(s, w1) := h c w in
      let '(o, w2, calls) := run (k s) h w1 in
      (o, w2, c :: calls)
  end.

End Native.

(** ** The iOS adapter *)
Module PasskeyiOS.
Import JsString Js Native.

(** The loop of [urlB64toStdB64]:
    [while (base64Standard.length % 4) { base64Standard += '='; }]. *)
Equations? pad_loop (base64Standard : string) : string
  by wf ((4 - String.length base64Standard mod 4) mod 4) lt :=
  pad_loop base64Standard with inspect (String.length base64Standard mod 4) => {
    | exist _ 0 aligned => base64Standard
    | exist _ (S r) unaligned => pad_loop (base64Standard +:+ "=") }.
Proof.
  assert (Hlen : forall a b, String.length (a +:+ b) = String.length a + String.length b).
  { intros a b. induction a as [|x a IH]; cbn; [reflexivity | now rewrite <- IH]. }
  assert (Hmod : forall n, 3 - (Nat.divmod n 3 0 3).2 = n mod 4) by reflexivity.
  clear pad_loop. rewrite !Hmod in *. rewrite Hlen. cbn [String.length].
  set (n := String.length base64Standard) in *.
  pose proof (Nat.mod_upper_bound n 4 ltac:(lia)) as Hlt.
  assert (Hn : (n + 1) mod 4 = (n mod 4 + 1) mod 4).
  { now rewrite Nat.Div0.add_mod_idemp_l. }
  rewrite Hn, unaligned.
  assert (Hr : r = 0 \/ r = 1 \/ r = 2) by lia.
  destruct Hr as [-> | [-> | ->]]; cbn; lia.
Qed.

(** [s.replace(/-/g, '+').replace(/_/g, '/')], then the padding loop. *)
Definition urlB64toStdB64 (s : string) : string :=
  let base64Standard := replace_global "_" "/" (replace_global "-" "+" s) in
  pad_loop base64Standard.

(** [s.replace(/\+/g, '-').replace(/\//g, '_').replace(/\=+$/, '')]. *)
Definition stdB64toUrlB64 (s : string) : string :=
  replace_equals_at_end (replace_global "/" "_" (replace_global "+" "-" s)).

(** Extracts the data the attestation needs on iOS from a request. *)
Definition prepareRegistrationRequest (request : PasskeyRegistrationRequest.t)
  : PasskeyiOSRegistrationData.t :=
  {| PasskeyiOSRegistrationData.rpId :=
       PasskeyRegistrationRequest.rp_id (PasskeyRegistrationRequest.rp request);
     PasskeyiOSRegistrationData.challenge :=
       urlB64toStdB64 (PasskeyRegistrationRequest.challenge request);
     PasskeyiOSRegistrationData.name :=
       PasskeyRegistrationRequest.user_displayName (PasskeyRegistrationRequest.user request);
     PasskeyiOSRegistrationData.userID :=
       PasskeyRegistrationRequest.user_id (PasskeyRegistrationRequest.user request) |}.

(** Transforms the iOS attestation result into a FIDO2 result. *)
Definition handleNativeRegistrationResult (result : PasskeyiOSRegistrationResult.t)
  : PasskeyRegistrationResult.t :=
  let response := PasskeyiOSRegistrationResult.response result in
  {| PasskeyRegistrationResult.id :=
       stdB64toUrlB64 (PasskeyiOSRegistrationResult.credentialID result);
     PasskeyRegistrationResult.rawId :=
       stdB64toUrlB64 (PasskeyiOSRegistrationResult.credentialID result);
     PasskeyRegistrationResult.type := "public-key";
     PasskeyRegistrationResult.response :=
       {| PasskeyRegistrationResult.clientDataJSON :=
            stdB64toUrlB64 (PasskeyiOSRegistrationResult.rawClientDataJSON response);
          PasskeyRegistrationResult.attestationObject :=
            stdB64toUrlB64 (PasskeyiOSRegistrationResult.rawAttestationObject response) |} |}.

(** Transforms the iOS assertion result into a FIDO2 result. *)
Definition handleNativeAuthenticationResult (result : PasskeyiOSAuthenticationResult.t)
  : PasskeyAuthenticationResult.t :=
  let response := PasskeyiOSAuthenticationResult.response result in
  {| PasskeyAuthenticationResult.id :=
       stdB64toUrlB64 (PasskeyiOSAuthenticationResult.credentialID result);
     PasskeyAuthenticationResult.rawId :=
       stdB64toUrlB64 (PasskeyiOSAuthenticationResult.credentialID result);
     PasskeyAuthenticationResult.type := "public-key";
     PasskeyAuthenticationResult.response :=
       {| PasskeyAuthenticationResult.clientDataJSON :=
            stdB64toUrlB64 (PasskeyiOSAuthenticationResult.rawClientDataJSON response);
          PasskeyAuthenticationResult.authenticatorData :=
            stdB64toUrlB64 (PasskeyiOSAuthenticationResult.rawAuthenticatorData response);
          PasskeyAuthenticationResult.signature :=
            stdB64toUrlB64 (PasskeyiOSAuthenticationResult.signature response);
          PasskeyAuthenticationResult.userHandle :=
            stdB64toUrlB64 (PasskeyiOSAuthenticationResult.userID result) |} |}.

Section WithClassifier.
(** The classifier of [./PasskeyError], a parameter of the adapter. *)
Variable handleNativeError : thrown -> PasskeyError.

(** [prepareRegistrationRequest] runs before the [try].
    [withSecurityKey = false] is a default parameter: [None] is the call
    that leaves it out. *)
Definition register (request : PasskeyRegistrationRequest.t)
    (withSecurityKey : option bool) : Prog PasskeyRegistrationResult.t :=
  let withSecurityKey := default false withSecurityKey in
  let d := prepareRegistrationRequest request in
  try_catch
    (response ← await (IOSRegister
                         (PasskeyiOSRegistrationData.rpId d)
                         (PasskeyiOSRegistrationData.challenge d)
                         (PasskeyiOSRegistrationData.name d)
                         (PasskeyiOSRegistrationData.userID d)
                         withSecurityKey);
     mret (handleNativeRegistrationResult response))
    (fun error => Throw (Classified (handleNativeError error))).

(** The challenge is re-encoded in the argument list, inside the [try]. *)
Definition authenticate (request : PasskeyAuthenticationRequest.t)
    (withSecurityKey : option bool) : Prog PasskeyAuthenticationResult.t :=
  let withSecurityKey := default false withSecurityKey in
  try_catch
    (response ← await (IOSAuthenticate
                         (PasskeyAuthenticationRequest.rpId request)
                         (urlB64toStdB64 (PasskeyAuthenticationRequest.challenge request))
                         withSecurityKey);
     mret (handleNativeAuthenticationResult response))
    (fun error => Throw (Classified (handleNativeError error))).

End WithClassifier.

End PasskeyiOS.

(** ** The Android adapter *)
Module PasskeyAndroid.
Import JsString Js Native.

(** [request.challenge] has to be a string for [.replace] to be there;
    on JSON data anything else ends in a [TypeError].  The spread copies
    the own properties of [request], then [challenge] is overwritten. *)
Definition prepareRequest (request : gmap string jsval)
  : thrown + gmap string jsval :=
  match request !! "challenge" with
  | Some (JStr challenge) =>
      let encodedChallenge :=
        replace_equals_at_end
          (replace_global "/" "_" (replace_global "+" "-" challenge)) in
      inr (<["challenge" := JStr encodedChallenge]> request)
  | _ => inl TypeError
  end.

(** The own enumerable properties [{...v}] copies: those of an object,
    the elements of an array and the code units of a string under their
    indices, nothing for the other primitives (and for [null]). *)
Fixpoint indexed {A : Type} (f : A -> jsval) (i : nat) (l : list A)
  : gmap string jsval :=
  match l with
  | [] => ∅
  | x :: l' => <[pretty i := f x]> (indexed f (S i) l')
  end.

Definition spread (v : jsval) : gmap string jsval :=
  match v with
  | JObj properties => properties
  | JArr elements => indexed (fun x => x) 0 elements
  | JStr s => indexed (fun a => JStr (String a EmptyString)) 0 (list_ascii_of_string s)
  | _ => ∅
  end.

(** [v.id]: a [TypeError] on [null] and [undefined], the own property of
    an object, [undefined] on the other values. *)
Definition read_id (v : jsval) : thrown + jsval :=
  match v with
  | JUndefined | JNull => inl TypeError
  | JObj properties => inr (prop_read properties "id")
  | _ => inr JUndefined
  end.

(** [{ ...response, id: response.id, rawId: response.id }]. *)
Definition handleNativeResponse (response : jsval) : thrown + gmap string jsval :=
  match read_id response with
  | inl e => inl e
  | inr response_id =>
      inr (<["rawId" := response_id]> (<["id" := response_id]> (spread response)))
  end.

Section WithPlatform.
(** The classifier of [./PasskeyError] and the two built-ins of the
    runtime, parameters of the adapter.  [JSON.parse] throws a
    [SyntaxError] on a text that is not JSON: [None]. *)
Variable handleNativeError : thrown -> PasskeyError.
Variable JSON_stringify : jsval -> string.
Variable JSON_parse : string -> option jsval.

(** [JSON.parse(text)], returning or throwing. *)
Definition parse (text : string) : thrown + jsval :=
  match JSON_parse text with
  | Some v => inr v
  | None => inl SyntaxError
  end.

(** [prepareRequest] runs before the [try]; the native call, [JSON.parse]
    and [handleNativeResponse] run inside it. *)
Definition register (request : gmap string jsval) : Prog (gmap string jsval) :=
  nativeRequest ← of_sum (prepareRequest request);
  try_catch
    (response ← await (AndroidRegister (JSON_stringify (JObj nativeRequest)));
     parsed ← of_sum (parse response);
     of_sum (handleNativeResponse parsed))
    (fun error => Throw (Classified (handleNativeError error))).

(** The same around [NativePasskey.authenticate]. *)
Definition authenticate (request : gmap string jsval) : Prog (gmap string jsval) :=
  nativeRequest ← of_sum (prepareRequest request);
  try_catch
    (response ← await (AndroidAuthenticate (JSON_stringify (JObj nativeRequest)));
     parsed ← of_sum (parse response);
     of_sum (handleNativeResponse parsed))
    (fun error => Throw (Classified (handleNativeError error))).

End WithPlatform.

End PasskeyAndroid.

(** ** What the adapters do around the native call, in closed form

    The invocation each operation makes and what it makes of the way the
    promise settles; the adapters are proved to run this way below. *)
Module Around.
Import Js Native PasskeyRegistrationRequest.

(** The invocation [PasskeyiOS.register] makes. *)
Definition ios_register_call (request : PasskeyRegistrationRequest.t)
    (withSecurityKey : option bool) : NativeCall :=
  IOSRegister (rp_id (rp request))
              (PasskeyiOS.urlB64toStdB64 (challenge request))
              (user_displayName (user request))
              (user_id (user request))
              (default false withSecurityKey).

(** The invocation [PasskeyiOS.authenticate] makes. *)
Definition ios_authenticate_call (request : PasskeyAuthenticationRequest.t)
    (withSecurityKey : option bool) : NativeCall :=
  IOSAuthenticate (PasskeyAuthenticationRequest.rpId request)
                  (PasskeyiOS.urlB64toStdB64 (PasskeyAuthenticationRequest.challenge request))
                  (default false withSecurityKey).

(** What the Android adapter makes of a settled native promise. *)
Definition android_settle (handleNativeError : thrown -> PasskeyError)
    (JSON_parse : string -> option jsval) (s : settled string)
  : outcome (gmap string jsval) :=
  match s with
  | Resolved text =>
      match JSON_parse text with
      | None => RejectedWith (Classified (handleNativeError SyntaxError))
      | Some parsed =>
          match PasskeyAndroid.handleNativeResponse parsed with
          | inl e => RejectedWith (Classified (handleNativeError e))
          | inr result => Fulfilled result
          end
      end
  | Rejected raw => RejectedWith (Classified (handleNativeError (NativeRejection raw)))
  end.

End Around.

(** ** The codec as section 4.1 of the specification words it

    Stated a second time, independently of the regular expressions and of
    the loop, to compare the adapter with. *)
Module SpecCodec.
Import JsString.

Definition to_standard_unit (a : ascii) : ascii :=
  if Ascii.eqb a "-" then "+"%char else if Ascii.eqb a "_" then "/"%char else a.

Definition to_url_safe_unit (a : ascii) : ascii :=
  if Ascii.eqb a "+" then "-"%char else if Ascii.eqb a "/" then "_"%char else a.

Fixpoint map_units (f : ascii -> ascii) (s : string) : string :=
  match s with
  | EmptyString => EmptyString
  | String a s' => String (f a) (map_units f s')
  end.

(** The number of [=] that bring a length [n] to a multiple of 4. *)
Definition padding (n : nat) : nat := (4 - n mod 4) mod 4.

(** [toStandard]: [-] to [+], [_] to [/], then right-padded with [=]
    until the length is a multiple of 4. *)
Definition toStandard (urlSafe : string) : string :=
  let t := map_units to_standard_unit urlSafe in
  t +:+ equals (padding (String.length t)).

(** A string without its trailing [=]. *)
Fixpoint strip_trailing_equals (s : string) : string :=
  match s with
  | EmptyString => EmptyString
  | String a s' =>
      match strip_trailing_equals s' with
      | EmptyString => if Ascii.eqb a "=" then EmptyString else String a EmptyString
      | t => String a t
      end
  end.

(** [toUrlSafe]: [+] to [-], [/] to [_], trailing [=] stripped. *)
Definition toUrlSafe (standard : string) : string :=
  strip_trailing_equals (map_units to_url_safe_unit standard).

(** Does [s] end with [=]? *)
Fixpoint ends_with_equals (s : string) : bool :=
  match s with
  | EmptyString => false
  | String a EmptyString => Ascii.eqb a "="
  | String _ s' => ends_with_equals s'
  end.

(** The url-safe alphabet: letters, digits, [-] and [_]. *)
Definition url_safe_unit (a : ascii) : bool :=
  (Ascii.leb "A" a && Ascii.leb a "Z")
  || (Ascii.leb "a" a && Ascii.leb a "z")
  || (Ascii.leb "0" a && Ascii.leb a "9")
  || Ascii.eqb a "-" || Ascii.eqb a "_".

Fixpoint all_units (p : ascii -> bool) (s : string) : bool :=
  match s with
  | EmptyString => true
  | String a s' => p a && all_units p s'
  end.

(** A valid unpadded url-safe base64 string: over the url-safe alphabet,
    of a length that an encoding can have (never 1 modulo 4). *)
Definition unpadded_urlB64 (x : string) : bool :=
  all_units url_safe_unit x && negb (Nat.eqb (String.length x mod 4) 1).

End SpecCodec.

(** ** Test doubles for the native layer and the runtime *)
Module Fixture.
Import Js Native.

Definition registrationResult : PasskeyiOSRegistrationResult.t :=
  {| PasskeyiOSRegistrationResult.credentialID := "ZGVmZw==";
     PasskeyiOSRegistrationResult.response :=
       {| PasskeyiOSRegistrationResult.rawAttestationObject := "o2NmbXQ/+w==";
          PasskeyiOSRegistrationResult.rawClientDataJSON := "eyJ0eXBlIjo+" |} |}.

Definition authenticationResult : PasskeyiOSAuthenticationResult.t :=
  {| PasskeyiOSAuthenticationResult.credentialID := "ZGVmZw==";
     PasskeyiOSAuthenticationResult.userID := "dXNlcg==";
     PasskeyiOSAuthenticationResult.response :=
       {| PasskeyiOSAuthenticationResult.rawAuthenticatorData := "SZYN5YgO/w==";
          PasskeyiOSAuthenticationResult.rawClientDataJSON := "eyJ0eXBlIjo+";
          PasskeyiOSAuthenticationResult.signature := "MEUCIQ+/" |} |}.

(** A native layer that resolves every invocation (the Android ones with
    [text]) and counts the invocations it has seen. *)
Definition resolving (text : string) : handler nat :=
  fun c n =>
    match c return settled (response_of c) * nat with
    | IOSRegister _ _ _ _ _ => (Resolved registrationResult, S n)
    | IOSAuthenticate _ _ _ => (Resolved authenticationResult, S n)
    | AndroidRegister _ => (Resolved text, S n)
    | AndroidAuthenticate _ => (Resolved text, S n)
    end.

(** A native layer that rejects every invocation with [raw], counting. *)
Definition rejecting (raw : jsval) : handler nat :=
  fun c n => (Rejected raw, S n).

(** The raw error of a dismissed system sheet. *)
Definition cancelled : jsval :=
  JObj {[ "code" := JStr "1001"; "message" := JStr "The operation was cancelled" ]}.

(** A classifier: the cancellation code is a user cancellation, anything
    else is unknown. *)
Definition classify (e : thrown) : PasskeyError :=
  match e with
  | NativeRejection (JObj o) =>
      match o !! "code" with
      | Some (JStr "1001") => {| kind := UserCancelled; message := "cancelled" |}
      | _ => {| kind := UnknownKind; message := "unknown" |}
      end
  | _ => {| kind := UnknownKind; message := "unknown" |}
  end.

Definition registrationRequest (challenge : string) : PasskeyRegistrationRequest.t :=
  {| PasskeyRegistrationRequest.challenge := challenge;
     PasskeyRegistrationRequest.rp :=
       {| PasskeyRegistrationRequest.rp_id := "example.com";
          PasskeyRegistrationRequest.rp_name := "Example" |};
     PasskeyRegistrationRequest.user :=
       {| PasskeyRegistrationRequest.user_id := "dXNlcg";
          PasskeyRegistrationRequest.user_name := "user@example.com";
          PasskeyRegistrationRequest.user_displayName := "User" |};
     PasskeyRegistrationRequest.others := {[ "attestation" := JStr "none" ]} |}.

Definition authenticationRequest (challenge : string) : PasskeyAuthenticationRequest.t :=
  {| PasskeyAuthenticationRequest.rpId := "example.com";
     PasskeyAuthenticationRequest.challenge := challenge;
     PasskeyAuthenticationRequest.others := ∅ |}.

(** An Android request: an object with a [challenge] and one more field. *)
Definition androidRequest (challenge : string) : gmap string jsval :=
  {[ "challenge" := JStr challenge; "rpId" := JStr "example.com" ]}.

(** Stand-ins for [JSON.stringify] and [JSON.parse]: the text sent is the
    challenge of the object, and the text ["other"] parses to a response
    whose [type] is not ["public-key"] and whose [rawId] differs from its
    [id]; every other text parses to a response without [rawId]. *)
Definition stringify (v : jsval) : string :=
  match v with
  | JObj o => match o !! "challenge" with Some (JStr c) => c | _ => EmptyString end
  | _ => EmptyString
  end.

Definition otherResponse : gmap string jsval :=
  {[ "id" := JStr "ZGVmZw"; "rawId" := JStr "AAAA"; "type" := JStr "other" ]}.

Definition plainResponse : gmap string jsval :=
  {[ "id" := JStr "ZGVmZw"; "type" := JStr "public-key" ]}.

Definition parse (text : string) : option jsval :=
  if String.eqb text "other" then Some (JObj otherResponse)
  else Some (JObj plainResponse).

End Fixture.

(** ** Shapes of strings and of outcomes *)
Module Shape.
Import JsString Js Native SpecCodec.

(** No code unit of [s] is [c]. *)
Definition without (c : ascii) (s : string) : bool :=
  all_units (fun a => negb (Ascii.eqb a c)) s.

(** Neither [+] nor [/] occurs and the string does not end with [=]: what
    a url-safe unpadded string looks like from the outside. *)
Definition url_safe_unpadded (t : string) : bool :=
  without "+" t && without "/" t && negb (ends_with_equals t).

(** Neither [-] nor [_] occurs and the length is a multiple of 4. *)
Definition standard_aligned (t : string) : bool :=
  without "-" t && without "_" t && Nat.eqb (String.length t mod 4) 0.

(** The caller gets a result or a classified error. *)
Definition fulfilled_or_classified {A : Type} (o : outcome A) : bool :=
  match o with
  | Fulfilled _ => true
  | RejectedWith (Classified _) => true
  | RejectedWith _ => false
  end.

End Shape.

(** * Properties *)

Import Js Native Around.

(** ** Strings *)
Section StringFacts.
Import JsString SpecCodec.

Lemma append_nil (t : string) : EmptyString +:+ t = t.
Proof. reflexivity. Qed.

Lemma append_cons (a : ascii) (s t : string) : String a s +:+ t = String a (s +:+ t).
Proof. reflexivity. Qed.

Lemma length_append (s t : string) :
  String.length (s +:+ t) = String.length s + String.length t.
Proof.
  induction s as [|a s IH]; [reflexivity |].
  rewrite append_cons. cbn [String.length]. now rewrite IH.
Qed.

Lemma append_empty_r (s : string) : s +:+ EmptyString = s.
Proof. induction s as [|a s IH]; [reflexivity | now rewrite append_cons, IH]. Qed.

Lemma append_assoc (s t u : string) : (s +:+ t) +:+ u = s +:+ (t +:+ u).
Proof. induction s as [|a s IH]; [reflexivity | now rewrite !append_cons, IH]. Qed.

Lemma length_equals (n : nat) : String.length (equals n) = n.
Proof. induction n as [|n IH]; simpl; [reflexivity | now rewrite IH]. Qed.

Lemma equals_snoc (n : nat) : equals n +:+ "=" = equals (S n).
Proof.
  induction n as [|n IH]; [reflexivity |].
  cbn [equals] in *. now rewrite append_cons, IH.
Qed.

(** A global replacement of one code unit is a map over the code units. *)
Lemma replace_global_map (c d : ascii) (s : string) :
  replace_global c d s = map_units (fun a => if Ascii.eqb a c then d else a) s.
Proof. induction s as [|a s IH]; simpl; [reflexivity | now rewrite IH]. Qed.

Lemma map_units_compose (f g : ascii -> ascii) (s : string) :
  map_units g (map_units f s) = map_units (fun a => g (f a)) s.
Proof. induction s as [|a s IH]; simpl; [reflexivity | now rewrite IH]. Qed.

Lemma map_units_ext (f g : ascii -> ascii) (s : string) :
  (forall a, f a = g a) -> map_units f s = map_units g s.
Proof. intros E. induction s as [|a s IH]; cbn; [reflexivity | now rewrite E, IH]. Qed.

Lemma length_map_units (f : ascii -> ascii) (s : string) :
  String.length (map_units f s) = String.length s.
Proof. induction s as [|a s IH]; simpl; [reflexivity | now rewrite IH]. Qed.

Lemma map_units_append (f : ascii -> ascii) (s t : string) :
  map_units f (s +:+ t) = map_units f s +:+ map_units f t.
Proof.
  induction s as [|a s IH]; [reflexivity |].
  rewrite append_cons. cbn [map_units]. now rewrite append_cons, IH.
Qed.

Lemma map_units_equals (f : ascii -> ascii) (n : nat) :
  f "="%char = "="%char -> map_units f (equals n) = equals n.
Proof. intros E. induction n as [|n IH]; cbn; [reflexivity | now rewrite E, IH]. Qed.

(** The two replacements of [urlB64toStdB64], and of [stdB64toUrlB64],
    act on each code unit as the specification's substitution does. *)
Lemma to_standard_units (s : string) :
  replace_global "_" "/" (replace_global "-" "+" s) = map_units to_standard_unit s.
Proof.
  rewrite !replace_global_map, map_units_compose. apply map_units_ext.
  intros a. unfold to_standard_unit.
  destruct (Ascii.eqb_spec a "-") as [-> | _]; reflexivity.
Qed.

Lemma to_url_safe_units (s : string) :
  replace_global "/" "_" (replace_global "+" "-" s) = map_units to_url_safe_unit s.
Proof.
  rewrite !replace_global_map, map_units_compose. apply map_units_ext.
  intros a. unfold to_url_safe_unit.
  destruct (Ascii.eqb_spec a "+") as [-> | _]; reflexivity.
Qed.

Lemma strip_only_equals (s : string) :
  only_equals s = true -> strip_trailing_equals s = EmptyString.
Proof.
  induction s as [|a s IH]; cbn; [reflexivity |].
  intros [Ha Hs]%andb_true_iff. now rewrite (IH Hs), Ha.
Qed.

Lemma strip_empty_only_equals (s : string) :
  strip_trailing_equals s = EmptyString -> only_equals s = true.
Proof.
  induction s as [|a s IH]; cbn; [reflexivity |].
  destruct (strip_trailing_equals s) eqn:E; [| discriminate].
  destruct (Ascii.eqb a "="); [| discriminate].
  intros _. now rewrite IH.
Qed.

(** The leftmost match of [/\=+$/] is the whole trailing run of [=]. *)
Lemma replace_equals_at_end_strip (s : string) :
  replace_equals_at_end s = strip_trailing_equals s.
Proof.
  induction s as [|a s IH]; [reflexivity |].
  cbn [replace_equals_at_end equals_run_to_end strip_trailing_equals].
  destruct (Ascii.eqb a "=" && only_equals s) eqn:E.
  - apply andb_true_iff in E as [Ha Hs].
    now rewrite (strip_only_equals s Hs), Ha.
  - rewrite IH. destruct (strip_trailing_equals s) eqn:Es; [| reflexivity].
    rewrite (strip_empty_only_equals s Es), andb_true_r in E. now rewrite E.
Qed.

Lemma strip_append_equals (s : string) (n : nat) :
  strip_trailing_equals (s +:+ equals n) = strip_trailing_equals s.
Proof.
  induction s as [|a s IH].
  - rewrite append_nil. apply strip_only_equals.
    induction n as [|n IHn]; cbn; [reflexivity | exact IHn].
  - rewrite append_cons. cbn [strip_trailing_equals]. now rewrite IH.
Qed.

(** Nothing is stripped from a string that holds no [=]. *)
Lemma strip_without_equals (s : string) :
  all_units (fun a => negb (Ascii.eqb a "=")) s = true ->
  strip_trailing_equals s = s.
Proof.
  induction s as [|a s IH]; cbn; [reflexivity |].
  intros [Ha Hs]%andb_true_iff. rewrite (IH Hs).
  apply negb_true_iff in Ha. rewrite Ha. now destruct s.
Qed.

(** What stripping leaves: a prefix that does not end with [=], the rest
    of the string being [=] only. *)
Lemma strip_trailing_equals_spec (s : string) :
  (exists n, s = strip_trailing_equals s +:+ equals n)
  /\ ends_with_equals (strip_trailing_equals s) = false.
Proof.
  induction s as [|a s [[n Hn] He]]; cbn.
  - split; [now exists 0 | reflexivity].
  - destruct (strip_trailing_equals s) as [|b t] eqn:Es.
    + destruct (Ascii.eqb_spec a "=") as [-> | Ha].
      * split; [| reflexivity]. exists (S n).
        rewrite append_nil in *. cbn [equals]. now rewrite <- Hn.
      * split.
        -- exists n. rewrite append_cons. now rewrite <- Hn.
        -- cbn. now apply Ascii.eqb_neq.
    + split; [| exact He].
      exists n. rewrite append_cons. now rewrite <- Hn.
Qed.

(** The loop pads with exactly [padding] many [=]. *)
Lemma pad_loop_padding (s : string) :
  PasskeyiOS.pad_loop s = s +:+ equals (padding (String.length s)).
Proof.
  funelim (PasskeyiOS.pad_loop s).
  - unfold padding. rewrite aligned. cbn. now rewrite append_empty_r.
  - match goal with IH : PasskeyiOS.pad_loop _ = _ +:+ _ |- _ => rewrite IH end.
    rewrite append_assoc, length_append. f_equal.
    rewrite append_cons, append_nil. cbn [String.length].
    change (String "=" (equals ?n)) with (equals (S n)).
    unfold padding.
    pose proof (Nat.mod_upper_bound (String.length base64Standard) 4 ltac:(lia)) as Hlt.
    assert (Hn : (String.length base64Standard + 1) mod 4
                 = (String.length base64Standard mod 4 + 1) mod 4)
      by now rewrite Nat.Div0.add_mod_idemp_l.
    rewrite Hn, unaligned.
    assert (Hr : r = 0 \/ r = 1 \/ r = 2) by lia.
    destruct Hr as [-> | [-> | ->]]; reflexivity.
Qed.

Lemma padding_bound (n : nat) : padding n <= 3 /\ (n + padding n) mod 4 = 0.
Proof.
  unfold padding.
  pose proof (Nat.mod_upper_bound n 4 ltac:(lia)) as Hlt.
  rewrite <- Nat.Div0.add_mod_idemp_l.
  assert (Hr : n mod 4 = 0 \/ n mod 4 = 1 \/ n mod 4 = 2 \/ n mod 4 = 3) by lia.
  destruct Hr as [-> | [-> | [-> | ->]]]; cbn; lia.
Qed.

(** The adapter's two functions are the codec of the specification. *)
Lemma urlB64toStdB64_toStandard (s : string) :
  PasskeyiOS.urlB64toStdB64 s = toStandard s.
Proof.
  unfold PasskeyiOS.urlB64toStdB64, toStandard.
  now rewrite pad_loop_padding, to_standard_units.
Qed.

Lemma stdB64toUrlB64_toUrlSafe (s : string) :
  PasskeyiOS.stdB64toUrlB64 s = toUrlSafe s.
Proof.
  unfold PasskeyiOS.stdB64toUrlB64, toUrlSafe.
  now rewrite replace_equals_at_end_strip, to_url_safe_units.
Qed.

Lemma url_safe_unit_cases (a : ascii) :
  url_safe_unit a = true ->
  to_url_safe_unit (to_standard_unit a) = a /\ Ascii.eqb a "=" = false.
Proof.
  destruct a as [[] [] [] [] [] [] [] []]; vm_compute; intros H;
    first [discriminate H | split; reflexivity].
Qed.

End StringFacts.

(** ** The codec *)
Section CodecFacts.
Import JsString SpecCodec.

Lemma url_safe_units_fixed (x : string) :
  all_units url_safe_unit x = true ->
  map_units (fun a => to_url_safe_unit (to_standard_unit a)) x = x
  /\ all_units (fun a => negb (Ascii.eqb a "=")) x = true.
Proof.
  induction x as [|a x IH]; cbn; [now split |].
  intros [Ha Hx]%andb_true_iff.
  destruct (url_safe_unit_cases a Ha) as [Hfix Hne], (IH Hx) as [Hmap Hall].
  now rewrite Hfix, Hmap, Hne, Hall.
Qed.

(** Over the url-safe alphabet the round trip is the identity, whatever
    the length. *)
Lemma round_trip_on_alphabet (x : string) :
  all_units url_safe_unit x = true ->
  PasskeyiOS.stdB64toUrlB64 (PasskeyiOS.urlB64toStdB64 x) = x.
Proof.
  intros Hx. destruct (url_safe_units_fixed x Hx) as [Hmap Hall].
  rewrite stdB64toUrlB64_toUrlSafe, urlB64toStdB64_toStandard.
  unfold toUrlSafe, toStandard.
  rewrite map_units_append, map_units_equals by reflexivity.
  rewrite strip_append_equals, map_units_compose, Hmap.
  now apply strip_without_equals.
Qed.

(** C1: for every valid unpadded url-safe base64 string [x], converting
    to the standard alphabet with padding and back to the url-safe
    alphabet without padding gives [x] again. *)
Theorem url_safe_round_trip (x : string) :
  unpadded_urlB64 x = true ->
  PasskeyiOS.stdB64toUrlB64 (PasskeyiOS.urlB64toStdB64 x) = x.
Proof.
  intros [Hx _]%andb_true_iff. now apply round_trip_on_alphabet.
Qed.

Lemma url_safe_round_trip_witness :
  unpadded_urlB64 "ab-_9Zw" = true
  /\ PasskeyiOS.urlB64toStdB64 "ab-_9Zw" = "ab+/9Zw="
  /\ PasskeyiOS.stdB64toUrlB64 (PasskeyiOS.urlB64toStdB64 "ab-_9Zw") = "ab-_9Zw".
Proof.
  split; [reflexivity |]. split; [reflexivity |].
  apply (url_safe_round_trip "ab-_9Zw"). reflexivity.
Defined.

(** C10: on every input, valid base64 or not, the padding loop of
    [urlB64toStdB64] ends having appended at most three [=], and the
    string returned has a length that is a multiple of 4. *)
Theorem padding_loop_bounded (s : string) :
  exists n,
    n <= 3
    /\ PasskeyiOS.urlB64toStdB64 s
       = replace_global "_" "/" (replace_global "-" "+" s) +:+ equals n
    /\ String.length (PasskeyiOS.urlB64toStdB64 s) mod 4 = 0.
Proof.
  unfold PasskeyiOS.urlB64toStdB64.
  set (t := replace_global "_" "/" (replace_global "-" "+" s)).
  destruct (padding_bound (String.length t)) as [Hle Hmod].
  exists (padding (String.length t)). rewrite pad_loop_padding.
  split; [exact Hle |]. split; [reflexivity |].
  now rewrite length_append, length_equals.
Qed.

End CodecFacts.

(** ** Running the adapters against a native layer *)
Section RunFacts.
Variable handleNativeError : thrown -> PasskeyError.
Variable JSON_stringify : jsval -> string.
Variable JSON_parse : string -> option jsval.
Context {W : Type}.
Variable h : handler W.

Lemma run_ios_register request withSecurityKey (w : W) :
  run (PasskeyiOS.register handleNativeError request withSecurityKey) h w
  = let '(s, w1) := h (ios_register_call request withSecurityKey) w in
    (match s with
     | Resolved r => Fulfilled (PasskeyiOS.handleNativeRegistrationResult r)
     | Rejected raw => RejectedWith (Classified (handleNativeError (NativeRejection raw)))
     end, w1, [ios_register_call request withSecurityKey]).
Proof.
  unfold PasskeyiOS.register, ios_register_call. cbn.
  destruct (h _ w) as [[r | raw] w1]; reflexivity.
Qed.

Lemma run_ios_authenticate request withSecurityKey (w : W) :
  run (PasskeyiOS.authenticate handleNativeError request withSecurityKey) h w
  = let '(s, w1) := h (ios_authenticate_call request withSecurityKey) w in
    (match s with
     | Resolved r => Fulfilled (PasskeyiOS.handleNativeAuthenticationResult r)
     | Rejected raw => RejectedWith (Classified (handleNativeError (NativeRejection raw)))
     end, w1, [ios_authenticate_call request withSecurityKey]).
Proof.
  unfold PasskeyiOS.authenticate, ios_authenticate_call. cbn.
  destruct (h _ w) as [[r | raw] w1]; reflexivity.
Qed.

Lemma run_android_register request (w : W) :
  run (PasskeyAndroid.register handleNativeError JSON_stringify JSON_parse request) h w
  = match PasskeyAndroid.prepareRequest request with
    | inl e => (RejectedWith e, w, [])
    | inr nativeRequest =>
        let c := AndroidRegister (JSON_stringify (JObj nativeRequest)) in
        let '(s, w1) := h c w in (android_settle handleNativeError JSON_parse s, w1, [c])
    end.
Proof.
  unfold PasskeyAndroid.register, android_settle, PasskeyAndroid.parse.
  destruct (PasskeyAndroid.prepareRequest request) as [e | nativeRequest]; cbn;
    [reflexivity |].
  destruct (h _ w) as [[text | raw] w1]; cbn; [| reflexivity].
  destruct (JSON_parse text) as [parsed |]; cbn; [| reflexivity].
  destruct (PasskeyAndroid.handleNativeResponse parsed); reflexivity.
Qed.

Lemma run_android_authenticate request (w : W) :
  run (PasskeyAndroid.authenticate handleNativeError JSON_stringify JSON_parse request) h w
  = match PasskeyAndroid.prepareRequest request with
    | inl e => (RejectedWith e, w, [])
    | inr nativeRequest =>
        let c := AndroidAuthenticate (JSON_stringify (JObj nativeRequest)) in
        let '(s, w1) := h c w in (android_settle handleNativeError JSON_parse s, w1, [c])
    end.
Proof.
  unfold PasskeyAndroid.authenticate, android_settle, PasskeyAndroid.parse.
  destruct (PasskeyAndroid.prepareRequest request) as [e | nativeRequest]; cbn;
    [reflexivity |].
  destruct (h _ w) as [[text | raw] w1]; cbn; [| reflexivity].
  destruct (JSON_parse text) as [parsed |]; cbn; [| reflexivity].
  destruct (PasskeyAndroid.handleNativeResponse parsed); reflexivity.
Qed.

End RunFacts.

(** ** The iOS adapter *)
Section IOSFacts.
Import SpecCodec.
Variable handleNativeError : thrown -> PasskeyError.
Context {W : Type}.

(** C3, as the code has it: for a registration request whose challenge is
    [abc-_], the native capability is invoked once, with the challenge
    [abc+/===]: the five code units are padded with three [=] to the
    next multiple of 4, which is 8. *)
Theorem register_abc_challenge_padded (h : handler W) (w : W)
    (rp : PasskeyRegistrationRequest.rp_t) (user : PasskeyRegistrationRequest.user_t)
    (others : gmap string jsval) (withSecurityKey : option bool) :
  (run (PasskeyiOS.register handleNativeError
          {| PasskeyRegistrationRequest.challenge := "abc-_";
             PasskeyRegistrationRequest.rp := rp;
             PasskeyRegistrationRequest.user := user;
             PasskeyRegistrationRequest.others := others |}
          withSecurityKey) h w).2
  = [IOSRegister (PasskeyRegistrationRequest.rp_id rp) "abc+/==="
                 (PasskeyRegistrationRequest.user_displayName user)
                 (PasskeyRegistrationRequest.user_id user)
                 (default false withSecurityKey)].
Proof.
  rewrite run_ios_register. destruct (h _ w) as [s w1]. reflexivity.
Qed.

(** C4: whatever registration result the native layer resolves with, the
    iOS [register] returns a result whose [id] and [rawId] are both the
    url-safe unpadded re-encoding of the native [credentialID], and whose
    [clientDataJSON] and [attestationObject] are the re-encodings of
    [rawClientDataJSON] and [rawAttestationObject]; for the credential
    [ZGVmZw==] both [id] and [rawId] are [ZGVmZw]. *)
Theorem registration_result_reencoded (h : handler W) (w w' : W)
    (request : PasskeyRegistrationRequest.t) (withSecurityKey : option bool)
    (native : PasskeyiOSRegistrationResult.t)
    (Hnative : h (ios_register_call request withSecurityKey) w = (Resolved native, w')) :
  exists result,
    run (PasskeyiOS.register handleNativeError request withSecurityKey) h w
    = (Fulfilled result, w', [ios_register_call request withSecurityKey])
    /\ PasskeyRegistrationResult.id result
       = toUrlSafe (PasskeyiOSRegistrationResult.credentialID native)
    /\ PasskeyRegistrationResult.rawId result
       = toUrlSafe (PasskeyiOSRegistrationResult.credentialID native)
    /\ PasskeyRegistrationResult.clientDataJSON (PasskeyRegistrationResult.response result)
       = toUrlSafe (PasskeyiOSRegistrationResult.rawClientDataJSON
                      (PasskeyiOSRegistrationResult.response native))
    /\ PasskeyRegistrationResult.attestationObject (PasskeyRegistrationResult.response result)
       = toUrlSafe (PasskeyiOSRegistrationResult.rawAttestationObject
                      (PasskeyiOSRegistrationResult.response native))
    /\ (PasskeyiOSRegistrationResult.credentialID native = "ZGVmZw==" ->
        PasskeyRegistrationResult.id result = "ZGVmZw"
        /\ PasskeyRegistrationResult.rawId result = "ZGVmZw").
Proof.
  exists (PasskeyiOS.handleNativeRegistrationResult native).
  rewrite run_ios_register, Hnative. cbn.
  rewrite <- !stdB64toUrlB64_toUrlSafe.
  do 5 (split; [reflexivity |]).
  intros ->. split; reflexivity.
Qed.

(** C7: whatever authentication result the native layer resolves with,
    the iOS [authenticate] returns a result whose [id] and [rawId] are the
    url-safe unpadded re-encoding of the native [credentialID], and whose
    response holds the re-encodings of [rawClientDataJSON] (as
    [clientDataJSON]), [rawAuthenticatorData] (as [authenticatorData]),
    [signature], and the native [userID] (as [userHandle]). *)
Theorem authentication_result_reencoded (h : handler W) (w w' : W)
    (request : PasskeyAuthenticationRequest.t) (withSecurityKey : option bool)
    (native : PasskeyiOSAuthenticationResult.t)
    (Hnative : h (ios_authenticate_call request withSecurityKey) w = (Resolved native, w')) :
  exists result,
    run (PasskeyiOS.authenticate handleNativeError request withSecurityKey) h w
    = (Fulfilled result, w', [ios_authenticate_call request withSecurityKey])
    /\ PasskeyAuthenticationResult.id result
       = toUrlSafe (PasskeyiOSAuthenticationResult.credentialID native)
    /\ PasskeyAuthenticationResult.rawId result
       = toUrlSafe (PasskeyiOSAuthenticationResult.credentialID native)
    /\ PasskeyAuthenticationResult.clientDataJSON (PasskeyAuthenticationResult.response result)
       = toUrlSafe (PasskeyiOSAuthenticationResult.rawClientDataJSON
                      (PasskeyiOSAuthenticationResult.response native))
    /\ PasskeyAuthenticationResult.authenticatorData (PasskeyAuthenticationResult.response result)
       = toUrlSafe (PasskeyiOSAuthenticationResult.rawAuthenticatorData
                      (PasskeyiOSAuthenticationResult.response native))
    /\ PasskeyAuthenticationResult.signature (PasskeyAuthenticationResult.response result)
       = toUrlSafe (PasskeyiOSAuthenticationResult.signature
                      (PasskeyiOSAuthenticationResult.response native))
    /\ PasskeyAuthenticationResult.userHandle (PasskeyAuthenticationResult.response result)
       = toUrlSafe (PasskeyiOSAuthenticationResult.userID native).
Proof.
  exists (PasskeyiOS.handleNativeAuthenticationResult native).
  rewrite run_ios_authenticate, Hnative. cbn.
  rewrite <- !stdB64toUrlB64_toUrlSafe.
  repeat split; reflexivity.
Qed.

(** C9: the iOS [register] reads [rp.id], the challenge (re-encoded),
    [user.displayName], [user.id] and the [withSecurityKey] flag, and
    nothing else: two requests that agree on these, and so any two that
    differ in [rp.name] and [user.name] only, give the same program and
    the same native invocation. *)
Theorem register_ignores_names (r1 r2 : PasskeyRegistrationRequest.t)
    (withSecurityKey : option bool) (h : handler W) (w : W)
    (Hrp : PasskeyRegistrationRequest.rp_id (PasskeyRegistrationRequest.rp r1)
           = PasskeyRegistrationRequest.rp_id (PasskeyRegistrationRequest.rp r2))
    (Hchallenge : PasskeyiOS.urlB64toStdB64 (PasskeyRegistrationRequest.challenge r1)
                  = PasskeyiOS.urlB64toStdB64 (PasskeyRegistrationRequest.challenge r2))
    (Hname : PasskeyRegistrationRequest.user_displayName (PasskeyRegistrationRequest.user r1)
             = PasskeyRegistrationRequest.user_displayName (PasskeyRegistrationRequest.user r2))
    (Huser : PasskeyRegistrationRequest.user_id (PasskeyRegistrationRequest.user r1)
             = PasskeyRegistrationRequest.user_id (PasskeyRegistrationRequest.user r2)) :
  PasskeyiOS.register handleNativeError r1 withSecurityKey
  = PasskeyiOS.register handleNativeError r2 withSecurityKey
  /\ (run (PasskeyiOS.register handleNativeError r1 withSecurityKey) h w).2
     = [ios_register_call r2 withSecurityKey]
  /\ run (PasskeyiOS.register handleNativeError r1 withSecurityKey) h w
     = run (PasskeyiOS.register handleNativeError r2 withSecurityKey) h w.
Proof.
  assert (E : PasskeyiOS.register handleNativeError r1 withSecurityKey
              = PasskeyiOS.register handleNativeError r2 withSecurityKey).
  { unfold PasskeyiOS.register, PasskeyiOS.prepareRegistrationRequest. cbn.
    now rewrite Hrp, Hchallenge, Hname, Huser. }
  split; [exact E |]. split; [| now rewrite E].
  rewrite E, run_ios_register. now destruct (h _ w).
Qed.

End IOSFacts.

(** ** The Android adapter *)
Section AndroidFacts.
Import SpecCodec.
Variable handleNativeError : thrown -> PasskeyError.
Variable JSON_stringify : jsval -> string.
Variable JSON_parse : string -> option jsval.
Context {W : Type}.

Lemma prepareRequest_string (request : gmap string jsval) (challenge : string) :
  request !! "challenge" = Some (JStr challenge) ->
  PasskeyAndroid.prepareRequest request
  = inr (<["challenge" := JStr (toUrlSafe challenge)]> request).
Proof.
  intros H. unfold PasskeyAndroid.prepareRequest. rewrite H.
  now rewrite replace_equals_at_end_strip, to_url_safe_units.
Qed.

(** C5: [prepareRequest] rewrites the [challenge] of a request from
    standard to url-safe unpadded base64 and leaves every other field as
    it is, and this is the object [register] and [authenticate] serialize
    for the native layer; a request whose challenge is [a+b/c=] goes out
    with the challenge [a-b_c] and its other fields unchanged. *)
Theorem android_request_frame (h : handler W) (w : W)
    (request others : gmap string jsval) (challenge k : string)
    (Hchallenge : request !! "challenge" = Some (JStr challenge))
    (Hk : k ≠ "challenge") :
  exists nativeRequest,
    PasskeyAndroid.prepareRequest request = inr nativeRequest
    /\ nativeRequest !! "challenge" = Some (JStr (toUrlSafe challenge))
    /\ nativeRequest !! k = request !! k
    /\ (run (PasskeyAndroid.register handleNativeError JSON_stringify JSON_parse request) h w).2
       = [AndroidRegister (JSON_stringify (JObj nativeRequest))]
    /\ (run (PasskeyAndroid.authenticate handleNativeError JSON_stringify JSON_parse request) h w).2
       = [AndroidAuthenticate (JSON_stringify (JObj nativeRequest))]
    /\ PasskeyAndroid.prepareRequest (<["challenge" := JStr "a+b/c="]> others)
       = inr (<["challenge" := JStr "a-b_c"]> others).
Proof.
  exists (<["challenge" := JStr (toUrlSafe challenge)]> request).
  pose proof (prepareRequest_string request challenge Hchallenge) as Hprep.
  split; [exact Hprep |].
  split; [apply lookup_insert_eq |].
  split; [apply lookup_insert_ne; congruence |].
  rewrite run_android_register, run_android_authenticate, Hprep. cbn.
  split; [now destruct (h _ w) |].
  split; [now destruct (h _ w) |].
  rewrite (prepareRequest_string _ "a+b/c=") by apply lookup_insert_eq.
  now rewrite insert_insert_eq.
Qed.

(** C6: for every parsed native response object, the result of the
    Android adapter is that object with [rawId] set to the [id] of the
    response: [rawId] and [id] of the result are equal, and every other
    property is the one of the response, whether or not the native layer
    sent a [rawId]. *)
Theorem android_rawId_forced (h : handler W) (w w' : W)
    (request nativeRequest response : gmap string jsval) (text k : string)
    (Hprepare : PasskeyAndroid.prepareRequest request = inr nativeRequest)
    (Hregister : h (AndroidRegister (JSON_stringify (JObj nativeRequest))) w
                 = (Resolved text, w'))
    (Hauthenticate : h (AndroidAuthenticate (JSON_stringify (JObj nativeRequest))) w
                     = (Resolved text, w'))
    (Hparse : JSON_parse text = Some (JObj response))
    (Hid : k ≠ "id") (HrawId : k ≠ "rawId") :
  exists result,
    PasskeyAndroid.handleNativeResponse (JObj response) = inr result
    /\ run (PasskeyAndroid.register handleNativeError JSON_stringify JSON_parse request) h w
       = (Fulfilled result, w', [AndroidRegister (JSON_stringify (JObj nativeRequest))])
    /\ run (PasskeyAndroid.authenticate handleNativeError JSON_stringify JSON_parse request) h w
       = (Fulfilled result, w', [AndroidAuthenticate (JSON_stringify (JObj nativeRequest))])
    /\ result !! "rawId" = Some (prop_read response "id")
    /\ result !! "id" = Some (prop_read response "id")
    /\ result !! "rawId" = result !! "id"
    /\ result !! k = response !! k
    /\ (forall v, response !! "id" = Some v -> result = <["rawId" := v]> response).
Proof.
  eexists. split; [reflexivity |].
  rewrite run_android_register, run_android_authenticate, Hprepare. cbn.
  rewrite Hregister, Hauthenticate. unfold android_settle. rewrite Hparse. cbn.
  do 2 (split; [reflexivity |]).
  split; [apply lookup_insert_eq |].
  split; [now rewrite lookup_insert_ne, lookup_insert_eq |].
  split; [now rewrite lookup_insert_eq, lookup_insert_ne, lookup_insert_eq |].
  split; [now rewrite !lookup_insert_ne |].
  intros v Hv. unfold prop_read. rewrite Hv. cbn.
  now rewrite (insert_id response "id" v Hv).
Qed.

End AndroidFacts.

(** ** Both adapters *)
Section AdapterFacts.
Variable handleNativeError : thrown -> PasskeyError.
Variable JSON_stringify : jsval -> string.
Variable JSON_parse : string -> option jsval.
Context {W : Type}.

(** C2, as the code has it: a successful iOS [register] or [authenticate]
    returns a result whose [type] is the literal [public-key]; a
    successful Android [register] or [authenticate] returns the [type] the
    parsed native response has, which the adapter does not set. *)
Theorem result_type_set_on_ios_only (h : handler W) (w : W) :
  (forall request withSecurityKey result w' calls,
      run (PasskeyiOS.register handleNativeError request withSecurityKey) h w
      = (Fulfilled result, w', calls) ->
      PasskeyRegistrationResult.type result = "public-key")
  /\ (forall request withSecurityKey result w' calls,
      run (PasskeyiOS.authenticate handleNativeError request withSecurityKey) h w
      = (Fulfilled result, w', calls) ->
      PasskeyAuthenticationResult.type result = "public-key")
  /\ (forall request result w' calls,
      run (PasskeyAndroid.register handleNativeError JSON_stringify JSON_parse request) h w
      = (Fulfilled result, w', calls) ->
      exists nativeRequest text parsed,
        h (AndroidRegister (JSON_stringify (JObj nativeRequest))) w = (Resolved text, w')
        /\ JSON_parse text = Some parsed
        /\ result !! "type" = PasskeyAndroid.spread parsed !! "type")
  /\ (forall request result w' calls,
      run (PasskeyAndroid.authenticate handleNativeError JSON_stringify JSON_parse request) h w
      = (Fulfilled result, w', calls) ->
      exists nativeRequest text parsed,
        h (AndroidAuthenticate (JSON_stringify (JObj nativeRequest))) w = (Resolved text, w')
        /\ JSON_parse text = Some parsed
        /\ result !! "type" = PasskeyAndroid.spread parsed !! "type").
Proof.
  assert (Hsettle : forall s result,
             android_settle handleNativeError JSON_parse s = Fulfilled result ->
             exists text parsed,
               s = Resolved text /\ JSON_parse text = Some parsed
               /\ result !! "type" = PasskeyAndroid.spread parsed !! "type").
  { intros [text | raw] result; cbn; [| discriminate].
    destruct (JSON_parse text) as [parsed |] eqn:Hparse; [| discriminate].
    unfold PasskeyAndroid.handleNativeResponse.
    destruct (PasskeyAndroid.read_id parsed) as [e | response_id]; [discriminate |].
    intros [= <-]. exists text, parsed.
    now rewrite !lookup_insert_ne. }
  repeat split.
  - intros request withSecurityKey result w' calls.
    rewrite run_ios_register. destruct (h _ w) as [[r | raw] w1]; [| discriminate].
    now intros [= <- _ _].
  - intros request withSecurityKey result w' calls.
    rewrite run_ios_authenticate. destruct (h _ w) as [[r | raw] w1]; [| discriminate].
    now intros [= <- _ _].
  - intros request result w' calls. rewrite run_android_register.
    destruct (PasskeyAndroid.prepareRequest request) as [e | nativeRequest];
      [discriminate |].
    cbn. destruct (h _ w) as [s w1] eqn:Hh. intros [= Hs -> _].
    destruct (Hsettle s result Hs) as (text & parsed & -> & Hparse & Htype).
    now exists nativeRequest, text, parsed.
  - intros request result w' calls. rewrite run_android_authenticate.
    destruct (PasskeyAndroid.prepareRequest request) as [e | nativeRequest];
      [discriminate |].
    cbn. destruct (h _ w) as [s w1] eqn:Hh. intros [= Hs -> _].
    destruct (Hsettle s result Hs) as (text & parsed & -> & Hparse & Htype).
    now exists nativeRequest, text, parsed.
Qed.

(** C8: when the native capability rejects with an error [raw], each of
    the four operations invokes it once and rejects with the value the
    classifier [handleNativeError] returns for that error: one
    invocation, no result, and a classified error instead of the raw
    one. *)
Theorem native_error_classified_once (h : handler W) (w w' : W) (raw : jsval)
    (registration : PasskeyRegistrationRequest.t)
    (authentication : PasskeyAuthenticationRequest.t)
    (withSecurityKey : option bool)
    (request : gmap string jsval) (challenge : string)
    (Hrejects : forall c, h c w = (Rejected raw, w'))
    (Hchallenge : request !! "challenge" = Some (JStr challenge)) :
  run (PasskeyiOS.register handleNativeError registration withSecurityKey) h w
  = (RejectedWith (Classified (handleNativeError (NativeRejection raw))), w',
     [ios_register_call registration withSecurityKey])
  /\ run (PasskeyiOS.authenticate handleNativeError authentication withSecurityKey) h w
     = (RejectedWith (Classified (handleNativeError (NativeRejection raw))), w',
        [ios_authenticate_call authentication withSecurityKey])
  /\ run (PasskeyAndroid.register handleNativeError JSON_stringify JSON_parse request) h w
     = (RejectedWith (Classified (handleNativeError (NativeRejection raw))), w',
        [AndroidRegister
           (JSON_stringify
              (JObj (<["challenge" := JStr (SpecCodec.toUrlSafe challenge)]> request)))])
  /\ run (PasskeyAndroid.authenticate handleNativeError JSON_stringify JSON_parse request) h w
     = (RejectedWith (Classified (handleNativeError (NativeRejection raw))), w',
        [AndroidAuthenticate
           (JSON_stringify
              (JObj (<["challenge" := JStr (SpecCodec.toUrlSafe challenge)]> request)))]).
Proof.
  rewrite run_ios_register, run_ios_authenticate,
    run_android_register, run_android_authenticate.
  rewrite (prepareRequest_string request challenge Hchallenge). cbn.
  rewrite !Hrejects. repeat split.
Qed.

End AdapterFacts.

(** ** The theorems at the test doubles *)
Section AtFixtures.
Import Fixture.

(** The Android adapter does not set [type]: a native response whose
    [type] is [other] comes back with that [type]. *)
Lemma android_type_not_forced :
  run (PasskeyAndroid.register classify stringify parse (androidRequest "a+b/c="))
      (resolving "other") 0
  = (Fulfilled {[ "id" := JStr "ZGVmZw"; "rawId" := JStr "ZGVmZw"; "type" := JStr "other" ]},
     1, [AndroidRegister "a-b_c"])
  /\ ({[ "id" := JStr "ZGVmZw"; "rawId" := JStr "ZGVmZw"; "type" := JStr "other" ]}
        : gmap string jsval) !! "type" ≠ Some (JStr "public-key").
Proof. split; [vm_compute; reflexivity | vm_compute; congruence]. Qed.

(** For the challenge [abc-_] the native layer is not invoked with
    [abc+/=], which has six code units, but with [abc+/===]. *)
Lemma register_abc_challenge_not_single_pad :
  (run (PasskeyiOS.register classify (registrationRequest "abc-_") None)
       (resolving "other") 0).2
  = [IOSRegister "example.com" "abc+/===" "User" "dXNlcg" false]
  /\ (run (PasskeyiOS.register classify (registrationRequest "abc-_") None)
          (resolving "other") 0).2
     ≠ [IOSRegister "example.com" "abc+/=" "User" "dXNlcg" false].
Proof. split; [vm_compute; reflexivity | vm_compute; congruence]. Qed.

Lemma result_type_set_on_ios_only_witness :
  PasskeyRegistrationResult.type
    (PasskeyiOS.handleNativeRegistrationResult registrationResult) = "public-key"
  /\ PasskeyAuthenticationResult.type
       (PasskeyiOS.handleNativeAuthenticationResult authenticationResult) = "public-key"
  /\ exists nativeRequest text parsed,
       resolving "plain" (AndroidRegister (stringify (JObj nativeRequest))) 0
       = (Resolved text, 1)
       /\ parse text = Some parsed
       /\ ({[ "id" := JStr "ZGVmZw"; "rawId" := JStr "ZGVmZw"; "type" := JStr "public-key" ]}
             : gmap string jsval) !! "type"
          = PasskeyAndroid.spread parsed !! "type".
Proof.
  destruct (result_type_set_on_ios_only classify stringify parse (resolving "plain") 0)
    as (Hregister & Hauthenticate & Handroid & _).
  split.
  { apply (Hregister (registrationRequest "abc-_") None _ 1
             [IOSRegister "example.com" "abc+/===" "User" "dXNlcg" false]).
    vm_compute. reflexivity. }
  split.
  { apply (Hauthenticate (authenticationRequest "abc-_") (Some true) _ 1
             [IOSAuthenticate "example.com" "abc+/===" true]).
    vm_compute. reflexivity. }
  apply (Handroid (androidRequest "a+b/c=") _ 1 [AndroidRegister "a-b_c"]).
  vm_compute. reflexivity.
Defined.

Lemma registration_result_reencoded_witness :
  resolving "plain" (ios_register_call (registrationRequest "abc-_") None) 0
  = (Resolved registrationResult, 1)
  /\ exists result,
       run (PasskeyiOS.register classify (registrationRequest "abc-_") None)
           (resolving "plain") 0
       = (Fulfilled result, 1, [ios_register_call (registrationRequest "abc-_") None])
       /\ PasskeyRegistrationResult.id result = "ZGVmZw"
       /\ PasskeyRegistrationResult.rawId result = "ZGVmZw"
       /\ PasskeyRegistrationResult.clientDataJSON (PasskeyRegistrationResult.response result)
          = "eyJ0eXBlIjo-"
       /\ PasskeyRegistrationResult.attestationObject (PasskeyRegistrationResult.response result)
          = "o2NmbXQ_-w".
Proof.
  split; [reflexivity |].
  destruct (registration_result_reencoded classify (resolving "plain") 0 1
              (registrationRequest "abc-_") None registrationResult eq_refl)
    as (result & Hrun & Hid & HrawId & Hclient & Hattestation & _).
  exists result. repeat split; assumption.
Defined.

Lemma authentication_result_reencoded_witness :
  resolving "plain" (ios_authenticate_call (authenticationRequest "abc-_") (Some true)) 0
  = (Resolved authenticationResult, 1)
  /\ exists result,
       run (PasskeyiOS.authenticate classify (authenticationRequest "abc-_") (Some true))
           (resolving "plain") 0
       = (Fulfilled result, 1, [IOSAuthenticate "example.com" "abc+/===" true])
       /\ PasskeyAuthenticationResult.id result = "ZGVmZw"
       /\ PasskeyAuthenticationResult.rawId result = "ZGVmZw"
       /\ PasskeyAuthenticationResult.clientDataJSON (PasskeyAuthenticationResult.response result)
          = "eyJ0eXBlIjo-"
       /\ PasskeyAuthenticationResult.authenticatorData (PasskeyAuthenticationResult.response result)
          = "SZYN5YgO_w"
       /\ PasskeyAuthenticationResult.signature (PasskeyAuthenticationResult.response result)
          = "MEUCIQ-_"
       /\ PasskeyAuthenticationResult.userHandle (PasskeyAuthenticationResult.response result)
          = "dXNlcg".
Proof.
  split; [reflexivity |].
  destruct (authentication_result_reencoded classify (resolving "plain") 0 1
              (authenticationRequest "abc-_") (Some true) authenticationResult eq_refl)
    as (result & Hrun & Hid & HrawId & Hclient & Hdata & Hsignature & Huser).
  exists result. repeat split; assumption.
Defined.

(** Two requests that differ in [rp.name] and [user.name]. *)
Lemma register_ignores_names_witness :
  let renamed :=
    {| PasskeyRegistrationRequest.challenge := "abc-_";
       PasskeyRegistrationRequest.rp :=
         {| PasskeyRegistrationRequest.rp_id := "example.com";
            PasskeyRegistrationRequest.rp_name := "Another name" |};
       PasskeyRegistrationRequest.user :=
         {| PasskeyRegistrationRequest.user_id := "dXNlcg";
            PasskeyRegistrationRequest.user_name := "someone.else";
            PasskeyRegistrationRequest.user_displayName := "User" |};
       PasskeyRegistrationRequest.others := {[ "attestation" := JStr "none" ]} |} in
  renamed ≠ registrationRequest "abc-_"
  /\ PasskeyiOS.register classify renamed None
     = PasskeyiOS.register classify (registrationRequest "abc-_") None
  /\ (run (PasskeyiOS.register classify renamed None) (resolving "plain") 0).2
     = [IOSRegister "example.com" "abc+/===" "User" "dXNlcg" false].
Proof.
  intros renamed. split; [discriminate |].
  destruct (register_ignores_names classify renamed (registrationRequest "abc-_") None
              (resolving "plain") 0 eq_refl eq_refl eq_refl eq_refl)
    as (Hprogram & Hcalls & _).
  split; [exact Hprogram | exact Hcalls].
Defined.

Lemma android_request_frame_witness :
  androidRequest "a+b/c=" !! "challenge" = Some (JStr "a+b/c=")
  /\ "rpId" ≠ "challenge"
  /\ exists nativeRequest,
       PasskeyAndroid.prepareRequest (androidRequest "a+b/c=") = inr nativeRequest
       /\ nativeRequest !! "challenge" = Some (JStr "a-b_c")
       /\ nativeRequest !! "rpId" = Some (JStr "example.com")
       /\ (run (PasskeyAndroid.register classify stringify parse (androidRequest "a+b/c="))
               (resolving "plain") 0).2
          = [AndroidRegister (stringify (JObj nativeRequest))].
Proof.
  split; [reflexivity |]. split; [discriminate |].
  destruct (android_request_frame classify stringify parse (resolving "plain") 0
              (androidRequest "a+b/c=") ∅ "a+b/c=" "rpId" eq_refl ltac:(discriminate))
    as (nativeRequest & Hprepare & Hchallenge & Hother & Hregister & _).
  exists nativeRequest. repeat split; assumption.
Defined.

(** A native response whose [rawId] differs from its [id]. *)
Lemma android_rawId_forced_witness :
  parse "other" = Some (JObj otherResponse)
  /\ otherResponse !! "rawId" = Some (JStr "AAAA")
  /\ exists result,
       run (PasskeyAndroid.register classify stringify parse (androidRequest "a+b/c="))
           (resolving "other") 0
       = (Fulfilled result, 1, [AndroidRegister "a-b_c"])
       /\ result !! "rawId" = Some (JStr "ZGVmZw")
       /\ result !! "id" = Some (JStr "ZGVmZw")
       /\ result !! "type" = Some (JStr "other").
Proof.
  split; [reflexivity |]. split; [reflexivity |].
  destruct (android_rawId_forced classify stringify parse (resolving "other") 0 1
              (androidRequest "a+b/c=")
              (<["challenge" := JStr "a-b_c"]> (androidRequest "a+b/c="))
              otherResponse "other" "type"
              eq_refl eq_refl eq_refl eq_refl ltac:(discriminate) ltac:(discriminate))
    as (result & _ & Hregister & _ & HrawId & Hid & _ & Htype & _).
  exists result. repeat split; assumption.
Defined.

(** The native layer rejects with the error of a dismissed sheet. *)
Lemma native_error_classified_once_witness :
  (forall c, rejecting cancelled c 0 = (Rejected cancelled, 1))
  /\ androidRequest "a+b/c=" !! "challenge" = Some (JStr "a+b/c=")
  /\ run (PasskeyiOS.register classify (registrationRequest "abc-_") None)
         (rejecting cancelled) 0
     = (RejectedWith (Classified {| kind := UserCancelled; message := "cancelled" |}), 1,
        [IOSRegister "example.com" "abc+/===" "User" "dXNlcg" false])
  /\ run (PasskeyAndroid.authenticate classify stringify parse (androidRequest "a+b/c="))
         (rejecting cancelled) 0
     = (RejectedWith (Classified {| kind := UserCancelled; message := "cancelled" |}), 1,
        [AndroidAuthenticate "a-b_c"]).
Proof.
  split; [reflexivity |]. split; [reflexivity |].
  destruct (native_error_classified_once classify stringify parse (rejecting cancelled)
              0 1 cancelled (registrationRequest "abc-_") (authenticationRequest "abc-_")
              None (androidRequest "a+b/c=") "a+b/c=" (fun c => eq_refl) eq_refl)
    as (Hregister & _ & _ & Hauthenticate).
  split; [exact Hregister | exact Hauthenticate].
Defined.

End AtFixtures.

(** * Further properties of the adapters *)

(** ** More on strings *)
Section MoreStringFacts.
Import JsString SpecCodec Shape.

Lemma all_units_map (p : ascii -> bool) (f : ascii -> ascii) (s : string) :
  all_units p (map_units f s) = all_units (fun a => p (f a)) s.
Proof. induction s as [|a s IH]; cbn; [reflexivity | now rewrite IH]. Qed.

Lemma all_units_ext (p q : ascii -> bool) (s : string) :
  (forall a, p a = q a) -> all_units p s = all_units q s.
Proof. intros E. induction s as [|a s IH]; cbn; [reflexivity | now rewrite E, IH]. Qed.

Lemma all_units_true (p : ascii -> bool) (s : string) :
  (forall a, p a = true) -> all_units p s = true.
Proof. intros E. induction s as [|a s IH]; cbn; [reflexivity | now rewrite E, IH]. Qed.

Lemma all_units_append (p : ascii -> bool) (s t : string) :
  all_units p (s +:+ t) = all_units p s && all_units p t.
Proof.
  induction s as [|a s IH]; [reflexivity |].
  rewrite append_cons. cbn [all_units]. now rewrite IH, andb_assoc.
Qed.

Lemma all_units_equals (p : ascii -> bool) (n : nat) :
  p "="%char = true -> all_units p (equals n) = true.
Proof. intros E. induction n as [|n IH]; cbn; [reflexivity | now rewrite E, IH]. Qed.

Lemma all_units_and (p q : ascii -> bool) (s : string) :
  all_units (fun a => p a && q a) s = all_units p s && all_units q s.
Proof.
  induction s as [|a s IH]; cbn; [reflexivity |]. rewrite IH.
  destruct (p a), (q a), (all_units p s), (all_units q s); reflexivity.
Qed.

(** Stripping keeps what holds of every code unit. *)
Lemma all_units_strip (p : ascii -> bool) (s : string) :
  all_units p s = true -> all_units p (strip_trailing_equals s) = true.
Proof.
  destruct (strip_trailing_equals_spec s) as [[n Hn] _].
  rewrite Hn at 1. rewrite all_units_append. now intros [H _]%andb_true_iff.
Qed.

Lemma map_units_fixed_iff (f : ascii -> ascii) (s : string) :
  map_units f s = s <-> all_units (fun a => Ascii.eqb (f a) a) s = true.
Proof.
  induction s as [|a s IH]; cbn; [now split |]. split.
  - intros H. injection H as Ha Hs. rewrite Ha, Ascii.eqb_refl. now apply IH.
  - intros [Ha Hs]%andb_true_iff. apply Ascii.eqb_eq in Ha.
    rewrite Ha. f_equal. now apply IH.
Qed.

Lemma strip_fixed_iff (s : string) :
  strip_trailing_equals s = s <-> ends_with_equals s = false.
Proof.
  split.
  - intros E. rewrite <- E. apply strip_trailing_equals_spec.
  - induction s as [|a s IH]; [reflexivity |]. cbn.
    destruct s as [|b s]; [now intros -> |].
    intros H. now rewrite (IH H).
Qed.

Lemma without_equals_ends (s : string) :
  without "=" s = true -> ends_with_equals s = false.
Proof.
  unfold without. induction s as [|a s IH]; [reflexivity |]. cbn.
  intros [Ha Hs]%andb_true_iff. destruct s as [|b s].
  - now apply negb_true_iff.
  - now apply IH.
Qed.

(** What the substitutions do to single code units. *)
Lemma url_safe_unit_image (a : ascii) :
  negb (Ascii.eqb (to_url_safe_unit a) "+") = true
  /\ negb (Ascii.eqb (to_url_safe_unit a) "/") = true
  /\ Ascii.eqb (to_url_safe_unit a) "=" = Ascii.eqb a "="
  /\ Ascii.eqb (to_url_safe_unit a) a
     = negb (Ascii.eqb a "+") && negb (Ascii.eqb a "/").
Proof. destruct a as [[] [] [] [] [] [] [] []]; vm_compute; repeat split. Qed.

Lemma standard_unit_image (a : ascii) :
  negb (Ascii.eqb (to_standard_unit a) "-") = true
  /\ negb (Ascii.eqb (to_standard_unit a) "_") = true
  /\ Ascii.eqb (to_standard_unit a) a
     = negb (Ascii.eqb a "-") && negb (Ascii.eqb a "_")
  /\ (negb (Ascii.eqb a "-") && negb (Ascii.eqb a "_") = true ->
      to_standard_unit (to_url_safe_unit a) = a).
Proof.
  destruct a as [[] [] [] [] [] [] [] []]; vm_compute; repeat split;
    intros H; first [reflexivity | discriminate H].
Qed.

Lemma toUrlSafe_shape (s : string) : url_safe_unpadded (toUrlSafe s) = true.
Proof.
  unfold url_safe_unpadded, toUrlSafe, without.
  rewrite !all_units_strip.
  - now destruct (strip_trailing_equals_spec (map_units to_url_safe_unit s)) as [_ ->].
  - rewrite all_units_map. apply all_units_true. intros a. apply url_safe_unit_image.
  - rewrite all_units_map. apply all_units_true. intros a. apply url_safe_unit_image.
Qed.

Lemma toUrlSafe_fixed (s : string) :
  url_safe_unpadded s = true -> toUrlSafe s = s.
Proof.
  unfold url_safe_unpadded, without, toUrlSafe.
  intros [[Hplus Hslash]%andb_true_iff Hend%negb_true_iff]%andb_true_iff.
  assert (Hmap : map_units to_url_safe_unit s = s).
  { apply map_units_fixed_iff.
    rewrite (all_units_ext _ (fun a => negb (Ascii.eqb a "+") && negb (Ascii.eqb a "/")))
      by (intros a; apply url_safe_unit_image).
    now rewrite all_units_and, Hplus, Hslash. }
  rewrite Hmap. now apply strip_fixed_iff.
Qed.

Lemma toStandard_shape (s : string) : standard_aligned (toStandard s) = true.
Proof.
  unfold standard_aligned, toStandard, without.
  rewrite !all_units_append, !all_units_map, length_append, length_equals.
  rewrite !all_units_equals by reflexivity.
  rewrite !(all_units_true _ s) by (intros a; apply standard_unit_image).
  destruct (padding_bound (String.length (map_units to_standard_unit s))) as [_ ->].
  reflexivity.
Qed.

Lemma padding_unique (n k : nat) : k <= 3 -> (n + k) mod 4 = 0 -> padding n = k.
Proof.
  intros Hk Hmod. unfold padding.
  pose proof (Nat.mod_upper_bound n 4 ltac:(lia)) as Hlt.
  rewrite <- Nat.Div0.add_mod_idemp_l in Hmod.
  assert (Hr : n mod 4 = 0 \/ n mod 4 = 1 \/ n mod 4 = 2 \/ n mod 4 = 3) by lia.
  assert (Hk' : k = 0 \/ k = 1 \/ k = 2 \/ k = 3) by lia.
  destruct Hr as [Hr | [Hr | [Hr | Hr]]]; rewrite Hr in *;
    destruct Hk' as [-> | [-> | [-> | ->]]]; cbn in *; congruence.
Qed.

Lemma toStandard_fixed (s : string) :
  standard_aligned s = true -> toStandard s = s.
Proof.
  unfold standard_aligned, without, toStandard.
  intros [[Hminus Hunder]%andb_true_iff Hlen%Nat.eqb_eq]%andb_true_iff.
  assert (Hmap : map_units to_standard_unit s = s).
  { apply map_units_fixed_iff.
    rewrite (all_units_ext _ (fun a => negb (Ascii.eqb a "-") && negb (Ascii.eqb a "_")))
      by (intros a; apply standard_unit_image).
    now rewrite all_units_and, Hminus, Hunder. }
  rewrite Hmap, (padding_unique (String.length s) 0) by (rewrite ?Nat.add_0_r; lia).
  apply append_empty_r.
Qed.

End MoreStringFacts.

(** ** More on the two re-encodings *)
Section MoreCodecFacts.
Import JsString SpecCodec Shape.

Lemma map_units_fixed_where (f : ascii -> ascii) (p : ascii -> bool) (s : string) :
  (forall a, p a = true -> f a = a) -> all_units p s = true -> map_units f s = s.
Proof.
  intros E. induction s as [|a s IH]; cbn; [reflexivity |].
  intros [Ha Hs]%andb_true_iff. now rewrite (E a Ha), (IH Hs).
Qed.

(** X1: whatever its input, [stdB64toUrlB64] returns a string in which
    neither [+] nor [/] occurs and which does not end with [=]. *)
Theorem stdB64toUrlB64_url_safe_unpadded (s : string) :
  url_safe_unpadded (PasskeyiOS.stdB64toUrlB64 s) = true.
Proof. rewrite stdB64toUrlB64_toUrlSafe. apply toUrlSafe_shape. Qed.

(** X2: [stdB64toUrlB64] removes nothing but a run of [=] at the end: its
    input, after the two substitutions, is its output followed by [=]
    only, as many as the lengths differ by; an [=] elsewhere stays. *)
Theorem stdB64toUrlB64_strips_trailing_only (s : string) :
  exists n,
    replace_global "/" "_" (replace_global "+" "-" s)
    = PasskeyiOS.stdB64toUrlB64 s +:+ equals n
    /\ String.length s = String.length (PasskeyiOS.stdB64toUrlB64 s) + n.
Proof.
  unfold PasskeyiOS.stdB64toUrlB64. rewrite replace_equals_at_end_strip.
  set (t := replace_global "/" "_" (replace_global "+" "-" s)).
  destruct (strip_trailing_equals_spec t) as [[n Hn] _].
  exists n. split; [exact Hn |].
  assert (Hlen : String.length t = String.length s).
  { unfold t. now rewrite to_url_safe_units, length_map_units. }
  rewrite <- Hlen. rewrite Hn at 1. now rewrite length_append, length_equals.
Qed.

(** X3: [stdB64toUrlB64] is idempotent: re-encoding a result once more
    changes nothing. *)
Theorem stdB64toUrlB64_idempotent (s : string) :
  PasskeyiOS.stdB64toUrlB64 (PasskeyiOS.stdB64toUrlB64 s) = PasskeyiOS.stdB64toUrlB64 s.
Proof.
  rewrite !stdB64toUrlB64_toUrlSafe. apply toUrlSafe_fixed, toUrlSafe_shape.
Qed.

(** X4: [stdB64toUrlB64] does not see padding: a string and the same
    string followed by any number of [=] are re-encoded alike. *)
Theorem stdB64toUrlB64_ignores_padding (s : string) (n : nat) :
  PasskeyiOS.stdB64toUrlB64 (s +:+ equals n) = PasskeyiOS.stdB64toUrlB64 s.
Proof.
  rewrite !stdB64toUrlB64_toUrlSafe. unfold toUrlSafe.
  rewrite map_units_append, map_units_equals by reflexivity.
  apply strip_append_equals.
Qed.

(** X5: the strings [stdB64toUrlB64] leaves as they are, are the ones
    without [+] and [/] that do not end with [=]. *)
Theorem stdB64toUrlB64_fixed_iff (s : string) :
  PasskeyiOS.stdB64toUrlB64 s = s <-> url_safe_unpadded s = true.
Proof.
  rewrite stdB64toUrlB64_toUrlSafe. split.
  - intros E. rewrite <- E. apply toUrlSafe_shape.
  - apply toUrlSafe_fixed.
Qed.

(** X6: whatever its input, [urlB64toStdB64] returns a string in which
    neither [-] nor [_] occurs and whose length is a multiple of 4. *)
Theorem urlB64toStdB64_standard_aligned (s : string) :
  standard_aligned (PasskeyiOS.urlB64toStdB64 s) = true.
Proof. rewrite urlB64toStdB64_toStandard. apply toStandard_shape. Qed.

(** X7: [urlB64toStdB64] is idempotent: a padded result is not padded
    again. *)
Theorem urlB64toStdB64_idempotent (s : string) :
  PasskeyiOS.urlB64toStdB64 (PasskeyiOS.urlB64toStdB64 s) = PasskeyiOS.urlB64toStdB64 s.
Proof.
  rewrite !urlB64toStdB64_toStandard. apply toStandard_fixed, toStandard_shape.
Qed.

(** X8: the strings [urlB64toStdB64] leaves as they are, are the ones
    without [-] and [_] whose length is a multiple of 4. *)
Theorem urlB64toStdB64_fixed_iff (s : string) :
  PasskeyiOS.urlB64toStdB64 s = s <-> standard_aligned s = true.
Proof.
  rewrite urlB64toStdB64_toStandard. split.
  - intros E. rewrite <- E. apply toStandard_shape.
  - apply toStandard_fixed.
Qed.

(** X9: the other round trip, from the standard alphabet to the url-safe
    one and back, gives the input again when the input is padded as the
    loop pads: a body without [=], [-] and [_], followed by at most three
    [=] that bring the length to a multiple of 4. *)
Theorem standard_round_trip (body : string) (k : nat) :
  without "=" body = true ->
  without "-" body = true ->
  without "_" body = true ->
  k <= 3 ->
  (String.length body + k) mod 4 = 0 ->
  PasskeyiOS.urlB64toStdB64 (PasskeyiOS.stdB64toUrlB64 (body +:+ equals k))
  = body +:+ equals k.
Proof.
  intros Hequals Hminus Hunder Hk Hmod.
  rewrite stdB64toUrlB64_toUrlSafe, urlB64toStdB64_toStandard.
  unfold toUrlSafe, toStandard.
  rewrite map_units_append, map_units_equals, strip_append_equals by reflexivity.
  assert (Hstrip : strip_trailing_equals (map_units to_url_safe_unit body)
                   = map_units to_url_safe_unit body).
  { apply strip_fixed_iff, without_equals_ends. unfold without in *.
    rewrite all_units_map.
    rewrite (all_units_ext _ (fun a => negb (Ascii.eqb a "="))); [exact Hequals |].
    intros a. f_equal. apply url_safe_unit_image. }
  rewrite Hstrip, map_units_compose, !length_map_units.
  rewrite (map_units_fixed_where _
             (fun a => negb (Ascii.eqb a "-") && negb (Ascii.eqb a "_"))).
  - now rewrite (padding_unique (String.length body) k).
  - intros a. apply standard_unit_image.
  - unfold without in *. now rewrite all_units_and, Hminus, Hunder.
Qed.

Lemma standard_round_trip_witness :
  without "=" "a+b/cQ" = true
  /\ (String.length "a+b/cQ" + 2) mod 4 = 0
  /\ PasskeyiOS.stdB64toUrlB64 "a+b/cQ==" = "a-b_cQ"
  /\ PasskeyiOS.urlB64toStdB64 (PasskeyiOS.stdB64toUrlB64 "a+b/cQ==") = "a+b/cQ==".
Proof.
  split; [reflexivity |]. split; [reflexivity |]. split; [reflexivity |].
  apply (standard_round_trip "a+b/cQ" 2); first [reflexivity | lia].
Defined.

(** X10: that round trip is lost on every string whose length is not a
    multiple of 4, a string with too little padding among them, since
    [urlB64toStdB64] returns multiples of 4 only. *)
Theorem standard_round_trip_needs_alignment (s : string) :
  String.length s mod 4 <> 0 ->
  PasskeyiOS.urlB64toStdB64 (PasskeyiOS.stdB64toUrlB64 s) <> s.
Proof.
  intros Hlen E.
  pose proof (toStandard_shape (PasskeyiOS.stdB64toUrlB64 s)) as Hshape.
  rewrite <- urlB64toStdB64_toStandard, E in Hshape.
  unfold standard_aligned in Hshape.
  apply andb_true_iff in Hshape as [_ Hzero]. now apply Nat.eqb_eq in Hzero.
Qed.

Lemma standard_round_trip_needs_alignment_witness :
  String.length "YQ=" mod 4 <> 0
  /\ PasskeyiOS.urlB64toStdB64 (PasskeyiOS.stdB64toUrlB64 "YQ=") = "YQ=="
  /\ PasskeyiOS.urlB64toStdB64 (PasskeyiOS.stdB64toUrlB64 "YQ=") <> "YQ=".
Proof.
  split; [discriminate |]. split; [reflexivity |].
  apply (standard_round_trip_needs_alignment "YQ="). discriminate.
Defined.

End MoreCodecFacts.

(** ** More on the iOS adapter *)
Section MoreIOSFacts.
Import SpecCodec Shape.
Variable handleNativeError : thrown -> PasskeyError.
Context {W : Type}.


(** X12: the iOS [authenticate] reads [rpId], the challenge (re-encoded)
    and the [withSecurityKey] flag, and nothing else of the request: two
    requests that agree on these give the same program, whatever their
    other fields (the allowed credentials among them) are. *)
Theorem authenticate_ignores_others (r1 r2 : PasskeyAuthenticationRequest.t)
    (withSecurityKey : option bool) (h : handler W) (w : W)
    (HrpId : PasskeyAuthenticationRequest.rpId r1 = PasskeyAuthenticationRequest.rpId r2)
    (Hchallenge : PasskeyiOS.urlB64toStdB64 (PasskeyAuthenticationRequest.challenge r1)
                  = PasskeyiOS.urlB64toStdB64 (PasskeyAuthenticationRequest.challenge r2)) :
  PasskeyiOS.authenticate handleNativeError r1 withSecurityKey
  = PasskeyiOS.authenticate handleNativeError r2 withSecurityKey
  /\ (run (PasskeyiOS.authenticate handleNativeError r1 withSecurityKey) h w).2
     = [ios_authenticate_call r2 withSecurityKey].
Proof.
  assert (E : PasskeyiOS.authenticate handleNativeError r1 withSecurityKey
              = PasskeyiOS.authenticate handleNativeError r2 withSecurityKey).
  { unfold PasskeyiOS.authenticate. now rewrite HrpId, Hchallenge. }
  split; [exact E |].
  rewrite E, run_ios_authenticate. now destruct (h _ w).
Qed.

(** X13: every string of the result [handleNativeRegistrationResult]
    builds is url-safe and unpadded (no [+], no [/], no [=] at the end),
    whatever the native layer sent, and [id] and [rawId] are equal. *)
Theorem registration_result_url_safe (native : PasskeyiOSRegistrationResult.t) :
  let result := PasskeyiOS.handleNativeRegistrationResult native in
  let response := PasskeyRegistrationResult.response result in
  PasskeyRegistrationResult.id result = PasskeyRegistrationResult.rawId result
  /\ url_safe_unpadded (PasskeyRegistrationResult.id result) = true
  /\ url_safe_unpadded (PasskeyRegistrationResult.clientDataJSON response) = true
  /\ url_safe_unpadded (PasskeyRegistrationResult.attestationObject response) = true.
Proof.
  cbn. rewrite !stdB64toUrlB64_toUrlSafe, !toUrlSafe_shape. repeat split.
Qed.

(** X14: every string of the result [handleNativeAuthenticationResult]
    builds is url-safe and unpadded, whatever the native layer sent, and
    [id] and [rawId] are equal. *)
Theorem authentication_result_url_safe (native : PasskeyiOSAuthenticationResult.t) :
  let result := PasskeyiOS.handleNativeAuthenticationResult native in
  let response := PasskeyAuthenticationResult.response result in
  PasskeyAuthenticationResult.id result = PasskeyAuthenticationResult.rawId result
  /\ url_safe_unpadded (PasskeyAuthenticationResult.id result) = true
  /\ url_safe_unpadded (PasskeyAuthenticationResult.clientDataJSON response) = true
  /\ url_safe_unpadded (PasskeyAuthenticationResult.authenticatorData response) = true
  /\ url_safe_unpadded (PasskeyAuthenticationResult.signature response) = true
  /\ url_safe_unpadded (PasskeyAuthenticationResult.userHandle response) = true.
Proof.
  cbn. rewrite !stdB64toUrlB64_toUrlSafe, !toUrlSafe_shape. repeat split.
Qed.

(** X15: the challenge the iOS adapter hands to the native layer, in
    [register] and in [authenticate], has a length that is a multiple of 4
    and holds neither [-] nor [_], whatever the challenge of the request
    is; the other arguments are those of the request. *)
Theorem ios_native_challenge_aligned (h : handler W) (w : W)
    (registration : PasskeyRegistrationRequest.t)
    (authentication : PasskeyAuthenticationRequest.t)
    (withSecurityKey : option bool) :
  exists c1 c2,
    (run (PasskeyiOS.register handleNativeError registration withSecurityKey) h w).2
    = [IOSRegister
         (PasskeyRegistrationRequest.rp_id (PasskeyRegistrationRequest.rp registration))
         c1
         (PasskeyRegistrationRequest.user_displayName (PasskeyRegistrationRequest.user registration))
         (PasskeyRegistrationRequest.user_id (PasskeyRegistrationRequest.user registration))
         (default false withSecurityKey)]
    /\ standard_aligned c1 = true
    /\ (run (PasskeyiOS.authenticate handleNativeError authentication withSecurityKey) h w).2
       = [IOSAuthenticate (PasskeyAuthenticationRequest.rpId authentication) c2
                          (default false withSecurityKey)]
    /\ standard_aligned c2 = true.
Proof.
  exists (PasskeyiOS.urlB64toStdB64 (PasskeyRegistrationRequest.challenge registration)),
         (PasskeyiOS.urlB64toStdB64 (PasskeyAuthenticationRequest.challenge authentication)).
  rewrite run_ios_register, run_ios_authenticate.
  rewrite !urlB64toStdB64_toStandard, !toStandard_shape.
  destruct (h (ios_register_call _ _) w), (h (ios_authenticate_call _ _) w).
  unfold ios_register_call, ios_authenticate_call.
  rewrite !urlB64toStdB64_toStandard. repeat split.
Qed.

End MoreIOSFacts.

(** ** More on the Android adapter *)
Section MoreAndroidFacts.
Import SpecCodec Shape.
Variable handleNativeError : thrown -> PasskeyError.
Variable JSON_stringify : jsval -> string.
Variable JSON_parse : string -> option jsval.
Context {W : Type}.

(** X16: [prepareRequest] runs before the [try]: for a request whose
    [challenge] is missing or is not a string, [register] and
    [authenticate] reject with the [TypeError] itself, not classified, and
    the native layer is not invoked. *)
Theorem android_prepare_error_unclassified (h : handler W) (w : W)
    (request : gmap string jsval)
    (Hchallenge : forall c, request !! "challenge" <> Some (JStr c)) :
  PasskeyAndroid.prepareRequest request = inl TypeError
  /\ run (PasskeyAndroid.register handleNativeError JSON_stringify JSON_parse request) h w
     = (RejectedWith TypeError, w, [])
  /\ run (PasskeyAndroid.authenticate handleNativeError JSON_stringify JSON_parse request) h w
     = (RejectedWith TypeError, w, []).
Proof.
  assert (E : PasskeyAndroid.prepareRequest request = inl TypeError).
  { unfold PasskeyAndroid.prepareRequest.
    destruct (request !! "challenge") as [[] |] eqn:Hlookup; try reflexivity.
    now destruct (Hchallenge s). }
  rewrite run_android_register, run_android_authenticate, E. repeat split.
Qed.

(** X17: when the native layer resolves with a text that is not JSON, the
    [SyntaxError] of [JSON.parse] is caught: [register] and [authenticate]
    reject with what the classifier makes of it, after one invocation. *)
Theorem android_unparsable_response_classified (h : handler W) (w w' : W)
    (request nativeRequest : gmap string jsval) (text : string)
    (Hprepare : PasskeyAndroid.prepareRequest request = inr nativeRequest)
    (Hregister : h (AndroidRegister (JSON_stringify (JObj nativeRequest))) w
                 = (Resolved text, w'))
    (Hauthenticate : h (AndroidAuthenticate (JSON_stringify (JObj nativeRequest))) w
                     = (Resolved text, w'))
    (Hparse : JSON_parse text = None) :
  run (PasskeyAndroid.register handleNativeError JSON_stringify JSON_parse request) h w
  = (RejectedWith (Classified (handleNativeError SyntaxError)), w',
     [AndroidRegister (JSON_stringify (JObj nativeRequest))])
  /\ run (PasskeyAndroid.authenticate handleNativeError JSON_stringify JSON_parse request) h w
     = (RejectedWith (Classified (handleNativeError SyntaxError)), w',
        [AndroidAuthenticate (JSON_stringify (JObj nativeRequest))]).
Proof.
  rewrite run_android_register, run_android_authenticate, Hprepare. cbn.
  rewrite Hregister, Hauthenticate. cbn. now rewrite Hparse.
Qed.

(** X18: when the native layer resolves with the JSON text of [null], the
    read of [response.id] throws inside the [try]: [register] and
    [authenticate] reject with what the classifier makes of the
    [TypeError], after one invocation. *)
Theorem android_null_response_classified (h : handler W) (w w' : W)
    (request nativeRequest : gmap string jsval) (text : string)
    (Hprepare : PasskeyAndroid.prepareRequest request = inr nativeRequest)
    (Hregister : h (AndroidRegister (JSON_stringify (JObj nativeRequest))) w
                 = (Resolved text, w'))
    (Hauthenticate : h (AndroidAuthenticate (JSON_stringify (JObj nativeRequest))) w
                     = (Resolved text, w'))
    (Hparse : JSON_parse text = Some JNull) :
  run (PasskeyAndroid.register handleNativeError JSON_stringify JSON_parse request) h w
  = (RejectedWith (Classified (handleNativeError TypeError)), w',
     [AndroidRegister (JSON_stringify (JObj nativeRequest))])
  /\ run (PasskeyAndroid.authenticate handleNativeError JSON_stringify JSON_parse request) h w
     = (RejectedWith (Classified (handleNativeError TypeError)), w',
        [AndroidAuthenticate (JSON_stringify (JObj nativeRequest))]).
Proof.
  rewrite run_android_register, run_android_authenticate, Hprepare. cbn.
  rewrite Hregister, Hauthenticate. cbn. now rewrite Hparse.
Qed.

(** X19: for a request whose [challenge] is a string, whatever the native
    layer does, the Android [register] and [authenticate] invoke it exactly
    once and settle with a result or with a classified error. *)
Theorem android_settles_fulfilled_or_classified (h : handler W) (w : W)
    (request : gmap string jsval) (challenge : string)
    (Hchallenge : request !! "challenge" = Some (JStr challenge)) :
  let r := run (PasskeyAndroid.register handleNativeError JSON_stringify JSON_parse request) h w in
  let a := run (PasskeyAndroid.authenticate handleNativeError JSON_stringify JSON_parse request) h w in
  fulfilled_or_classified r.1.1 = true
  /\ length r.2 = 1
  /\ fulfilled_or_classified a.1.1 = true
  /\ length a.2 = 1.
Proof.
  cbv zeta. rewrite run_android_register, run_android_authenticate.
  rewrite (prepareRequest_string request challenge Hchallenge). cbn.
  assert (Hsettle : forall s,
             fulfilled_or_classified (android_settle handleNativeError JSON_parse s) = true).
  { intros [text | raw]; cbn; [| reflexivity].
    destruct (JSON_parse text) as [parsed |]; [| reflexivity].
    now destruct (PasskeyAndroid.handleNativeResponse parsed). }
  destruct (h (AndroidRegister _) w) as [s1 w1], (h (AndroidAuthenticate _) w) as [s2 w2].
  cbn. now rewrite !Hsettle.
Qed.

(** X20: [prepareRequest] is idempotent: preparing a prepared request
    gives it back unchanged. *)
Theorem prepareRequest_idempotent (request nativeRequest : gmap string jsval)
    (Hprepare : PasskeyAndroid.prepareRequest request = inr nativeRequest) :
  PasskeyAndroid.prepareRequest nativeRequest = inr nativeRequest.
Proof.
  unfold PasskeyAndroid.prepareRequest in Hprepare.
  destruct (request !! "challenge") as [[] |] eqn:Hlookup; try discriminate.
  rewrite replace_equals_at_end_strip, to_url_safe_units in Hprepare.
  injection Hprepare as <-.
  rewrite (prepareRequest_string _ (toUrlSafe s)) by apply lookup_insert_eq.
  rewrite insert_insert_eq. do 3 f_equal.
  apply toUrlSafe_fixed, toUrlSafe_shape.
Qed.

(** X21: [prepareRequest] neither adds nor drops a property: the prepared
    request has the property names of the request. *)
Theorem prepareRequest_keeps_keys (request nativeRequest : gmap string jsval)
    (Hprepare : PasskeyAndroid.prepareRequest request = inr nativeRequest) :
  dom nativeRequest = dom request.
Proof.
  unfold PasskeyAndroid.prepareRequest in Hprepare.
  destruct (request !! "challenge") as [[] |] eqn:Hlookup; try discriminate.
  injection Hprepare as <-. rewrite dom_insert_L.
  apply subseteq_union_1_L, singleton_subseteq_l, elem_of_dom. eauto.
Qed.

(** X22: the challenge of a prepared request is url-safe and unpadded:
    no [+], no [/], no [=] at the end, whatever the challenge was. *)
Theorem prepareRequest_challenge_url_safe (request nativeRequest : gmap string jsval)
    (Hprepare : PasskeyAndroid.prepareRequest request = inr nativeRequest) :
  exists encoded,
    nativeRequest !! "challenge" = Some (JStr encoded)
    /\ url_safe_unpadded encoded = true.
Proof.
  unfold PasskeyAndroid.prepareRequest in Hprepare.
  destruct (request !! "challenge") as [[] |] eqn:Hlookup; try discriminate.
  rewrite replace_equals_at_end_strip, to_url_safe_units in Hprepare.
  injection Hprepare as <-.
  exists (toUrlSafe s). split; [apply lookup_insert_eq | apply toUrlSafe_shape].
Qed.

(** X23: [handleNativeResponse] is idempotent: applied to a result of its
    own it returns that result. *)
Theorem handleNativeResponse_idempotent (response : jsval) (result : gmap string jsval)
    (Hresult : PasskeyAndroid.handleNativeResponse response = inr result) :
  PasskeyAndroid.handleNativeResponse (JObj result) = inr result.
Proof.
  unfold PasskeyAndroid.handleNativeResponse in *.
  destruct (PasskeyAndroid.read_id response) as [e | response_id]; [discriminate |].
  injection Hresult as <-. cbn. unfold prop_read.
  rewrite lookup_insert_ne, lookup_insert_eq by discriminate. cbn.
  f_equal. rewrite (insert_id _ "id" response_id).
  - apply insert_id, lookup_insert_eq.
  - now rewrite lookup_insert_ne, lookup_insert_eq.
Qed.

(** X24: [handleNativeResponse] throws on [null] and [undefined] only, a
    [TypeError]; on every other value, an object or not, it returns. *)
Theorem handleNativeResponse_fails_iff (response : jsval) (e : thrown) :
  PasskeyAndroid.handleNativeResponse response = inl e
  <-> (response = JNull \/ response = JUndefined) /\ e = TypeError.
Proof.
  unfold PasskeyAndroid.handleNativeResponse. split.
  - destruct response; cbn; intros [= <-]; auto.
  - intros [[-> | ->] ->]; reflexivity.
Qed.

End MoreAndroidFacts.

(** ** The further theorems at the test doubles *)
Section MoreAtFixtures.
Import Shape Fixture.

(** Two requests that differ in their other fields only. *)
Lemma authenticate_ignores_others_witness :
  let allowing :=
    {| PasskeyAuthenticationRequest.rpId := "example.com";
       PasskeyAuthenticationRequest.challenge := "abc-_";
       PasskeyAuthenticationRequest.others :=
         {[ "allowCredentials" := JArr [JStr "ZGVmZw"] ]} |} in
  allowing <> authenticationRequest "abc-_"
  /\ PasskeyiOS.authenticate classify allowing None
     = PasskeyiOS.authenticate classify (authenticationRequest "abc-_") None
  /\ (run (PasskeyiOS.authenticate classify allowing None) (resolving "plain") 0).2
     = [IOSAuthenticate "example.com" "abc+/===" false].
Proof.
  intros allowing. split.
  { intros E. apply (f_equal PasskeyAuthenticationRequest.others) in E.
    apply (f_equal (fun m => m !! "allowCredentials")) in E. discriminate E. }
  apply (authenticate_ignores_others classify allowing (authenticationRequest "abc-_")
           None (resolving "plain") 0 eq_refl eq_refl).
Defined.

(** A request without a challenge, and one whose challenge is a number. *)
Lemma android_prepare_error_unclassified_witness :
  (forall c, ({[ "rpId" := JStr "example.com" ]} : gmap string jsval) !! "challenge"
             <> Some (JStr c))
  /\ run (PasskeyAndroid.register classify stringify parse {[ "rpId" := JStr "example.com" ]})
         (resolving "plain") 0
     = (RejectedWith TypeError, 0, [])
  /\ run (PasskeyAndroid.authenticate classify stringify parse {[ "challenge" := JNum "7" ]})
         (resolving "plain") 0
     = (RejectedWith TypeError, 0, []).
Proof.
  split; [intros c; discriminate |].
  split.
  - apply (android_prepare_error_unclassified classify stringify parse (resolving "plain") 0
             {[ "rpId" := JStr "example.com" ]}).
    intros c. discriminate.
  - apply (android_prepare_error_unclassified classify stringify parse (resolving "plain") 0
             {[ "challenge" := JNum "7" ]}).
    intros c. discriminate.
Defined.

(** A native layer whose text does not parse. *)
Lemma android_unparsable_response_classified_witness :
  run (PasskeyAndroid.register classify stringify (fun _ => None) (androidRequest "a+b/c="))
      (resolving "<html>") 0
  = (RejectedWith (Classified {| kind := UnknownKind; message := "unknown" |}), 1,
     [AndroidRegister "a-b_c"]).
Proof.
  apply (android_unparsable_response_classified classify stringify (fun _ => None)
           (resolving "<html>") 0 1 (androidRequest "a+b/c=")
           (<["challenge" := JStr "a-b_c"]> (androidRequest "a+b/c=")) "<html>"
           eq_refl eq_refl eq_refl eq_refl).
Defined.

(** A native layer whose text is the JSON of [null]. *)
Lemma android_null_response_classified_witness :
  run (PasskeyAndroid.authenticate classify stringify (fun _ => Some JNull)
         (androidRequest "a+b/c="))
      (resolving "null") 0
  = (RejectedWith (Classified {| kind := UnknownKind; message := "unknown" |}), 1,
     [AndroidAuthenticate "a-b_c"]).
Proof.
  apply (android_null_response_classified classify stringify (fun _ => Some JNull)
           (resolving "null") 0 1 (androidRequest "a+b/c=")
           (<["challenge" := JStr "a-b_c"]> (androidRequest "a+b/c=")) "null"
           eq_refl eq_refl eq_refl eq_refl).
Defined.

Lemma android_settles_fulfilled_or_classified_witness :
  androidRequest "a+b/c=" !! "challenge" = Some (JStr "a+b/c=")
  /\ fulfilled_or_classified
       (run (PasskeyAndroid.register classify stringify parse (androidRequest "a+b/c="))
            (rejecting cancelled) 0).1.1 = true
  /\ length (run (PasskeyAndroid.register classify stringify parse (androidRequest "a+b/c="))
                 (rejecting cancelled) 0).2 = 1.
Proof.
  split; [reflexivity |].
  destruct (android_settles_fulfilled_or_classified classify stringify parse
              (rejecting cancelled) 0 (androidRequest "a+b/c=") "a+b/c=" eq_refl)
    as (Hsettled & Hcalls & _).
  split; [exact Hsettled | exact Hcalls].
Defined.

Lemma prepareRequest_idempotent_witness :
  PasskeyAndroid.prepareRequest (androidRequest "a+b/c=")
  = inr (androidRequest "a-b_c")
  /\ PasskeyAndroid.prepareRequest (androidRequest "a-b_c")
     = inr (androidRequest "a-b_c").
Proof.
  split; [vm_compute; reflexivity |].
  apply (prepareRequest_idempotent (androidRequest "a+b/c=")).
  vm_compute. reflexivity.
Defined.

Lemma prepareRequest_keeps_keys_witness :
  PasskeyAndroid.prepareRequest (androidRequest "a+b/c=")
  = inr (androidRequest "a-b_c")
  /\ dom (androidRequest "a-b_c") = dom (androidRequest "a+b/c=").
Proof.
  split; [vm_compute; reflexivity |].
  apply (prepareRequest_keeps_keys (androidRequest "a+b/c=")).
  vm_compute. reflexivity.
Defined.

Lemma prepareRequest_challenge_url_safe_witness :
  PasskeyAndroid.prepareRequest (androidRequest "a+b/c=")
  = inr (androidRequest "a-b_c")
  /\ exists encoded,
       androidRequest "a-b_c" !! "challenge" = Some (JStr encoded)
       /\ url_safe_unpadded encoded = true.
Proof.
  split; [vm_compute; reflexivity |].
  apply (prepareRequest_challenge_url_safe (androidRequest "a+b/c=")).
  vm_compute. reflexivity.
Defined.

(** A response whose [rawId] differs from its [id], and its result. *)
Lemma handleNativeResponse_idempotent_witness :
  PasskeyAndroid.handleNativeResponse (JObj otherResponse)
  = inr (<["rawId" := JStr "ZGVmZw"]> otherResponse)
  /\ PasskeyAndroid.handleNativeResponse (JObj (<["rawId" := JStr "ZGVmZw"]> otherResponse))
     = inr (<["rawId" := JStr "ZGVmZw"]> otherResponse).
Proof.
  split; [vm_compute; reflexivity |].
  apply (handleNativeResponse_idempotent (JObj otherResponse)).
  vm_compute. reflexivity.
Defined.

End MoreAtFixtures.
